(** * src/lib/api.ts: the client of the classifier and of the generative
      assessment service

    A shallow embedding of the three exported functions of [src/lib/api.ts]
    ([getGeminiAssessment], [analyzeImage], [checkServerHealth]) and of the
    private [getFallbackAssessment], with the part of the JavaScript run time
    they rely on: strings as sequences of UTF-16 code units, the values that
    [response.json()] produces, property reads, truthiness, exceptions, and
    the backtracking matcher behind [String.prototype.match]. *)

From Stdlib Require Import List NArith ZArith Bool String Ascii Lia.
From Stdlib Require Import Floats.SpecFloat.
From Stdlib Require DecimalN.
Import ListNotations.
Open Scope N_scope.
Set Warnings "-register-all".

(* ================================================================== *)
(** ** Strings *)

Module Js.

(** A JavaScript string is a sequence of UTF-16 code units. *)
Definition jsstr := list N.

(** The code units of an ASCII literal of the source. *)
Definition lit (s : string) : jsstr := map N_of_ascii (list_ascii_of_string s).

Fixpoint jsstr_eqb (a b : jsstr) : bool :=
  match a, b with
  | [], [] => true
  | x :: a', y :: b' => (x =? y) && jsstr_eqb a' b'
  | _, _ => false
  end.

(** WhiteSpace and LineTerminator of ECMAScript: what [\s] matches and what
    [String.prototype.trim] strips. *)
Definition is_space (c : N) : bool :=
  ((9 <=? c) && (c <=? 13))            (* TAB LF VT FF CR *)
  || (c =? 32) || (c =? 160)           (* SP, NBSP *)
  || (c =? 5760)                       (* U+1680 *)
  || ((8192 <=? c) && (c <=? 8202))    (* U+2000 .. U+200A *)
  || (c =? 8232) || (c =? 8233)        (* LS, PS *)
  || (c =? 8239) || (c =? 8287)        (* U+202F, U+205F *)
  || (c =? 12288) || (c =? 65279).     (* U+3000, U+FEFF *)

Fixpoint skip_spaces (s : jsstr) : jsstr :=
  match s with
  | c :: s' => if is_space c then skip_spaces s' else s
  | [] => []
  end.

(** [s.trim()] *)
Definition trim (s : jsstr) : jsstr := rev (skip_spaces (rev (skip_spaces s))).

(** Canonicalize of a regular expression with the [i] flag and without [u]:
    the code unit is upper-cased, except that a code unit of 128 or more never
    becomes an ASCII one.  On the ASCII patterns of this file that leaves the
    folding of [a-z] onto [A-Z]. *)
Definition canonicalize (c : N) : N :=
  if (97 <=? c) && (c <=? 122) then c - 32 else c.

(** Does [p], a pattern of literal characters, match a prefix of [s] under the
    [i] flag?  The rest of [s] when it does. *)
Fixpoint strip_prefix_ci (p s : jsstr) : option jsstr :=
  match p, s with
  | [], _ => Some s
  | x :: p', y :: s' =>
      if canonicalize x =? canonicalize y then strip_prefix_ci p' s' else None
  | _ :: _, [] => None
  end.

(** The decimal digits of a non-negative integer, as [`${n}`] prints it. *)
Fixpoint uint_units (d : Decimal.uint) : jsstr :=
  match d with
  | Decimal.Nil => []
  | Decimal.D0 d => 48 :: uint_units d
  | Decimal.D1 d => 49 :: uint_units d
  | Decimal.D2 d => 50 :: uint_units d
  | Decimal.D3 d => 51 :: uint_units d
  | Decimal.D4 d => 52 :: uint_units d
  | Decimal.D5 d => 53 :: uint_units d
  | Decimal.D6 d => 54 :: uint_units d
  | Decimal.D7 d => 55 :: uint_units d
  | Decimal.D8 d => 56 :: uint_units d
  | Decimal.D9 d => 57 :: uint_units d
  end.

Definition integer_to_string (n : N) : jsstr := uint_units (N.to_uint n).

(* ---------------------------------------------------------------- *)
(** ** Values and exceptions *)

(** A Number is an IEEE 754 double. *)
Definition number := spec_float.

(** The values [JSON.parse] builds, and [undefined].  An object is given by
    its own properties; the first binding of a key is the property. *)
Inductive value :=
| VUndefined
| VNull
| VBool (b : bool)
| VNum (x : number)
| VStr (s : jsstr)
| VArr (items : list value)
| VObj (props : list (jsstr * value)).

Definition truthy (v : value) : bool :=
  match v with
  | VUndefined | VNull => false
  | VBool b => b
  | VNum (S754_zero _) | VNum S754_nan => false
  | VNum _ => true
  | VStr [] => false
  | VStr (_ :: _) => true
  | VArr _ | VObj _ => true
  end.

(** [a || b] *)
Definition or_else (a b : value) : value := if truthy a then a else b.

(** What a piece of code can throw, and a promise be rejected with. *)
Inductive thrown :=
| EnvFailure (name message : jsstr)  (* raised by [fetch] or [response.json()] *)
| TypeError                          (* raised by the language: a property read on
                                        null or undefined, a call of a non-function *)
| NewError (message : jsstr).        (* [new Error(message)] *)

(** The completion of a piece of code; for an [async] function, how its
    promise settles: [Return v] is "resolves to v", [Throw e] is
    "rejects with e". *)
Inductive outcome (A : Type) :=
| Return (a : A)
| Throw (e : thrown).
Arguments Return {A} a.
Arguments Throw {A} e.

Definition bind {A B} (c : outcome A) (k : A -> outcome B) : outcome B :=
  match c with
  | Return a => k a
  | Throw e => Throw e
  end.

(** [try { c } catch (error) { h error }] *)
Definition try_catch {A} (c : outcome A) (h : thrown -> outcome A) : outcome A :=
  match c with
  | Return a => Return a
  | Throw e => h e
  end.

(** [p.catch(h)] on a promise, with a handler that returns a value. *)
Definition promise_catch {A} (p : outcome A) (h : thrown -> A) : outcome A :=
  match p with
  | Return a => Return a
  | Throw e => Return (h e)
  end.

Definition resolves {A} (c : outcome A) : Prop := exists a, c = Return a.
Definition rejects {A} (c : outcome A) : Prop := exists e, c = Throw e.

(** The own property [name] of an object, [undefined] when there is none. *)
Fixpoint own_property (name : jsstr) (props : list (jsstr * value)) : value :=
  match props with
  | [] => VUndefined
  | (k, v) :: rest => if jsstr_eqb k name then v else own_property name rest
  end.

(** [v.name], for the property names the source reads from decoded JSON
    ([candidates], [content], [parts], [text], [detail]): none of them is
    defined by a built-in prototype, so only an object's own property counts,
    and every primitive, array included, answers [undefined]. *)
Definition get_named (v : value) (name : jsstr) : outcome value :=
  match v with
  | VUndefined | VNull => Throw TypeError
  | VObj props => Return (own_property name props)
  | VBool _ | VNum _ | VStr _ | VArr _ => Return VUndefined
  end.

(** [v?.name], same names. *)
Definition opt_named (v : value) (name : jsstr) : value :=
  match v with
  | VObj props => own_property name props
  | _ => VUndefined
  end.

(** [v?.[0]]: the first element of an array, the first code unit of a string,
    the own property ["0"] of an object. *)
Definition opt_index0 (v : value) : value :=
  match v with
  | VArr (x :: _) => x
  | VStr (c :: _) => VStr [c]
  | VObj props => own_property (lit "0") props
  | _ => VUndefined
  end.

End Js.
Export Js.

Notation "x <- c ;; k" := (bind c (fun x => k))
  (at level 61, c at next level, right associativity).

(* ================================================================== *)
(** ** The regular expressions of the source

    [String.prototype.match] with a pattern without the [g] flag runs the
    backtracking matcher of ECMAScript at each start position in turn, from
    the left.  The syntax below covers what the three patterns of
    [getGeminiAssessment] are built from; all three carry the [i] flag and
    none the [m] flag, so [$] is the end of the input. *)

Module Regex.

Inductive class :=
| Space      (* [\s] *)
| Any.       (* [[\s\S]] *)

Definition in_class (c : class) (x : N) : bool :=
  match c with
  | Space => is_space x
  | Any => true
  end.

Inductive regex :=
| Chars (p : jsstr)                 (* literal characters *)
| Star (c : class)                  (* [c*], greedy *)
| LazyStar (c : class)              (* [c*?] *)
| Group (r : regex)                 (* [(r)], the capture group of the pattern *)
| Ahead (r : regex)                 (* [(?=r)] *)
| Alt (r1 r2 : regex)               (* [r1|r2] *)
| EndOfInput                        (* [$] *)
| Seq (r1 r2 : regex).

(** The state of a match: what is left of the input, and capture 1
    ([None] is [undefined]). *)
Definition captures := option jsstr.
Definition cont := jsstr -> captures -> option captures.

(** [c*]: as many characters of the class as the continuation allows,
    the longest first. *)
Fixpoint star_greedy (c : class) (k : cont) (s : jsstr) (cap : captures)
  : option captures :=
  match s with
  | x :: s' =>
      if in_class c x then
        match star_greedy c k s' cap with
        | Some r => Some r
        | None => k s cap
        end
      else k s cap
  | [] => k s cap
  end.

(** [c*?]: as few characters of the class as the continuation allows. *)
Fixpoint star_lazy (c : class) (k : cont) (s : jsstr) (cap : captures)
  : option captures :=
  match k s cap with
  | Some r => Some r
  | None =>
      match s with
      | x :: s' => if in_class c x then star_lazy c k s' cap else None
      | [] => None
      end
  end.

(** The matcher, in continuation-passing style: [run r k s cap] matches [r]
    at the head of [s] and hands what is left to [k]; when [k] fails the
    matcher tries the next alternative. *)
Fixpoint run (r : regex) (k : cont) (s : jsstr) (cap : captures)
  : option captures :=
  match r with
  | Chars p =>
      match strip_prefix_ci p s with
      | Some s' => k s' cap
      | None => None
      end
  | Star c => star_greedy c k s cap
  | LazyStar c => star_lazy c k s cap
  | Group r1 =>
      run r1 (fun s' _ => k s' (Some (firstn (List.length s - List.length s') s))) s cap
  | Ahead r1 =>
      match run r1 (fun _ cap' => Some cap') s cap with
      | Some cap' => k s cap'
      | None => None
      end
  | Alt r1 r2 =>
      match run r1 k s cap with
      | Some x => Some x
      | None => run r2 k s cap
      end
  | EndOfInput =>
      match s with
      | [] => k s cap
      | _ :: _ => None
      end
  | Seq r1 r2 => run r1 (run r2 k) s cap
  end.

Definition accept : cont := fun _ cap => Some cap.

(** [s.match(r)]: [None] is [null]; otherwise capture 1 of the match at the
    leftmost position where the pattern matches. *)
Fixpoint exec (r : regex) (s : jsstr) : option captures :=
  match run r accept s None with
  | Some cap => Some cap
  | None =>
      match s with
      | [] => None
      | _ :: s' => exec r s'
      end
  end.

End Regex.
Export Regex.

(* ================================================================== *)
(** ** src/lib/api.ts *)

Module Api.

(** *** The environment of the module *)

Record File := { file_name : jsstr; file_type : jsstr; file_bytes : list N }.

Inductive payload :=
| NoBody
| GenerateContent (text : jsstr)
    (* [JSON.stringify] of [{contents: [{parts: [{text}]}],
       generationConfig: {temperature: 0.7, maxOutputTokens: 500}}] *)
| FormData (fields : list (jsstr * File)).

Record request := {
  url : jsstr;
  method : jsstr;
  headers : list (jsstr * jsstr);
  body : payload
}.

(** A response of [fetch]: its status and how [response.json()] settles
    (each function below calls it at most once on a response). *)
Record response := {
  status : N;
  json : outcome value
}.

(** [response.ok] *)
Definition ok (r : response) : bool := (200 <=? status r) && (status r <=? 299).

(** What the module takes from outside: two variables of [process.env], the
    network, and two conversions of the run time that the source calls and
    this file does not compute. *)
Record Env := {
  NEXT_PUBLIC_API_URL : option jsstr;
  NEXT_PUBLIC_GEMINI_API_KEY : option jsstr;
  fetch : request -> outcome response;
  toFixed1 : number -> jsstr;          (* [x.toFixed(1)] *)
  ToString : value -> outcome jsstr    (* ToString of a value that is not a
                                          string; it can throw *)
}.

(** [process.env.X || dflt] *)
Definition env_or (x : option jsstr) (dflt : jsstr) : jsstr :=
  match x with
  | Some (c :: s) => c :: s
  | Some [] | None => dflt
  end.

Definition API_URL (env : Env) : jsstr :=
  env_or (NEXT_PUBLIC_API_URL env) (lit "https://SairamDev-selfie-dr.hf.space").

Definition GEMINI_API_KEY (env : Env) : jsstr :=
  env_or (NEXT_PUBLIC_GEMINI_API_KEY env) [].

Definition GEMINI_API_URL : jsstr :=
  lit "https://generativelanguage.googleapis.com/v1beta/models/gemini-1.5-flash-latest:generateContent".

(** [new Error(v)]: the message is [v] itself when [v] is a string. *)
Definition new_Error (env : Env) (v : value) : outcome thrown :=
  match v with
  | VStr s => Return (NewError s)
  | _ => message <- ToString env v ;; Return (NewError message)
  end.

(** *** The data model *)

Record GeminiAssessment := {
  description : jsstr;
  cause : jsstr;
  remedy : jsstr
}.

(** What a function typed as returning a [GeminiAssessment] hands back at run
    time: an assessment, or the member of [Object.prototype] of the given
    name, which [assessments[classification]] finds through the prototype chain
    of the table when the table has no such own key. *)
Inductive assessment_value :=
| Assessment (a : GeminiAssessment)
| Inherited (name : jsstr).

(** *** getFallbackAssessment *)

Definition assessments : list (jsstr * GeminiAssessment) :=
  [
    (lit "No DR",
     {| description := lit "Your retinal scan shows no signs of diabetic retinopathy. The blood vessels in your retina appear healthy without any diabetes-related damage. This is an excellent result, but continued monitoring is important as diabetic retinopathy can develop over time in people with diabetes.";
        cause := lit "Not applicable - no diabetic retinopathy detected. Your current diabetes management appears to be effectively protecting your eye health.";
        remedy := lit "Maintain regular annual eye exams and keep your blood sugar levels well controlled." |});
    (lit "Mild",
     {| description := lit "Your scan indicates mild non-proliferative diabetic retinopathy (NPDR). Small areas of balloon-like swelling called microaneurysms have been detected in the retina's blood vessels. At this early stage, there is typically no noticeable vision loss, but it signals that diabetes is beginning to affect your eyes.";
        cause := lit "This early stage may be caused by prolonged periods of elevated blood sugar levels, which weaken the tiny blood vessels in the retina. Contributing factors could include inconsistent diabetes management, high blood pressure, or duration of diabetes.";
        remedy := lit "Schedule a follow-up with your ophthalmologist within 6-12 months and focus on strict blood sugar control." |});
    (lit "Moderate",
     {| description := lit "Moderate non-proliferative diabetic retinopathy has been detected. The blood vessels in your retina are showing more significant damage, with some vessels becoming blocked. This can lead to reduced blood flow to parts of your retina and may start affecting your vision quality.";
        cause := lit "Progression to this stage is typically associated with chronic hyperglycemia over several years, combined with factors like uncontrolled hypertension, high cholesterol, or smoking. Inadequate diabetes management accelerates vessel damage.";
        remedy := lit "Consult your ophthalmologist within 3-6 months for detailed examination and potential treatment planning." |});
    (lit "Severe",
     {| description := lit "Your scan reveals severe non-proliferative diabetic retinopathy. Many blood vessels in your retina are blocked, depriving several areas of adequate blood supply. This significantly increases the risk of progression to proliferative diabetic retinopathy and potential vision loss.";
        cause := lit "Severe retinopathy usually results from years of poorly controlled diabetes with persistent high blood sugar, often compounded by hypertension and kidney disease. The extensive blockage indicates significant cumulative damage to retinal blood vessels.";
        remedy := lit "Seek urgent consultation with a retina specialist within 2-4 weeks for possible laser treatment or injections." |});
    (lit "Proliferative DR",
     {| description := lit "Proliferative diabetic retinopathy (PDR), the most advanced stage, has been detected. New, abnormal blood vessels are growing on the retina's surface. These fragile vessels can leak blood into the eye and cause retinal detachment, leading to severe vision loss or blindness if untreated.";
        cause := lit "PDR develops when severe oxygen deprivation triggers abnormal blood vessel growth. This typically results from long-standing diabetes with poor glycemic control, often combined with hypertension, nephropathy, and delayed treatment of earlier retinopathy stages.";
        remedy := lit "Seek immediate medical attention from a retina specialist for urgent treatment including laser therapy or vitrectomy." |})
  ].

(** The properties of [Object.prototype], which every object literal inherits.
    Eleven are functions and [__proto__] reads as [Object.prototype] itself:
    all twelve are truthy. *)
Definition Object_prototype_keys : list jsstr :=
  [ lit "constructor"; lit "hasOwnProperty"; lit "isPrototypeOf";
    lit "propertyIsEnumerable"; lit "toLocaleString"; lit "toString";
    lit "valueOf"; lit "__proto__"; lit "__defineGetter__";
    lit "__defineSetter__"; lit "__lookupGetter__"; lit "__lookupSetter__" ].

Fixpoint own_entry (key : jsstr) (table : list (jsstr * GeminiAssessment))
  : option GeminiAssessment :=
  match table with
  | [] => None
  | (k, a) :: rest => if jsstr_eqb k key then Some a else own_entry key rest
  end.

(** [assessments[classification]]: [None] is [undefined]. *)
Definition table_get (classification : jsstr) : option assessment_value :=
  match own_entry classification assessments with
  | Some a => Some (Assessment a)
  | None =>
      if existsb (jsstr_eqb classification) Object_prototype_keys
      then Some (Inherited classification)
      else None
  end.

Definition generic_assessment (classification : jsstr) : GeminiAssessment :=
  {| description := classification ++ lit " has been detected in your retinal scan. This condition affects the blood vessels in the retina and may impact your vision if left untreated. The severity level indicates how much the retina has been affected by diabetes-related changes.";
     cause := lit "Diabetic retinopathy is generally caused by prolonged high blood sugar levels damaging the blood vessels in the retina. Contributing factors may include duration of diabetes, blood pressure, cholesterol levels, and overall diabetes management.";
     remedy := lit "Please consult with an ophthalmologist for a comprehensive eye examination and treatment plan." |}.

Definition getFallbackAssessment (classification : jsstr) : assessment_value :=
  match table_get classification with
  | Some v => v
  | None => Assessment (generic_assessment classification)
  end.

(** *** getGeminiAssessment *)

Definition quote : jsstr := [34].
Definition newline : jsstr := [10].

Definition prompt (env : Env) (classification : jsstr) (probability : number)
  : jsstr :=
  lit "You are a diabetic retinopathy specialist. A patient's retinal scan has been analyzed and detected as "
  ++ quote ++ classification ++ quote ++ lit " with "
  ++ toFixed1 env probability ++ lit "% confidence." ++ newline
  ++ newline
  ++ lit "Please provide:" ++ newline
  ++ lit "1. A professional explanation of this condition in 3-4 lines, explaining what it means for the patient in simple terms." ++ newline
  ++ lit "2. Potential causes for the infection that may have led to this stage of diabetic retinopathy in 2-3 lines." ++ newline
  ++ lit "3. A single line remedy or recommended next step." ++ newline
  ++ newline
  ++ lit "Format your response exactly as:" ++ newline
  ++ lit "DESCRIPTION: [Your 3-4 line explanation here]" ++ newline
  ++ lit "CAUSE: [Your 2-3 line potential causes here]" ++ newline
  ++ lit "REMEDY: [Your one line remedy here]".

(** [/DESCRIPTION:\s*([\s\S]*?)(?=CAUSE:|$)/i] *)
Definition descriptionRe : regex :=
  Seq (Chars (lit "DESCRIPTION:"))
      (Seq (Star Space)
           (Seq (Group (LazyStar Any))
                (Ahead (Alt (Chars (lit "CAUSE:")) EndOfInput)))).

(** [/CAUSE:\s*([\s\S]*?)(?=REMEDY:|$)/i] *)
Definition causeRe : regex :=
  Seq (Chars (lit "CAUSE:"))
      (Seq (Star Space)
           (Seq (Group (LazyStar Any))
                (Ahead (Alt (Chars (lit "REMEDY:")) EndOfInput)))).

(** [/REMEDY:\s*([\s\S]*?)$/i] *)
Definition remedyRe : regex :=
  Seq (Chars (lit "REMEDY:"))
      (Seq (Star Space)
           (Seq (Group (LazyStar Any)) EndOfInput)).

(** [text.match(r)]: a value that is not a string has no callable [match]. *)
Definition String_match (text : value) (r : regex) : outcome (option captures) :=
  match text with
  | VStr s => Return (exec r s)
  | _ => Throw TypeError
  end.

(** [m?.[1]?.trim() || dflt] *)
Definition section (m : option captures) (dflt : jsstr) : jsstr :=
  match m with
  | Some (Some c) =>
      match trim c with
      | [] => dflt
      | x :: t => x :: t
      end
  | Some None | None => dflt
  end.

(** [data.candidates?.[0]?.content?.parts?.[0]?.text || EMPTY], with EMPTY
    the empty string literal. *)
Definition candidate_text (data : value) : outcome value :=
  candidates <- get_named data (lit "candidates") ;;
  Return
    (or_else
       (opt_named
          (opt_index0
             (opt_named
                (opt_named (opt_index0 candidates) (lit "content"))
                (lit "parts")))
          (lit "text"))
       (VStr [])).

(** The parse of the candidate text, lines 81 to 89. *)
Definition parse_assessment (text : value) : outcome GeminiAssessment :=
  descriptionMatch <- String_match text descriptionRe ;;
  causeMatch <- String_match text causeRe ;;
  remedyMatch <- String_match text remedyRe ;;
  Return
    {| description := section descriptionMatch (lit "Assessment not available.");
       cause := section causeMatch (lit "Cause assessment not available.");
       remedy := section remedyMatch (lit "Please consult with a healthcare professional.") |}.

Definition gemini_request (env : Env) (classification : jsstr)
  (probability : number) : request :=
  {| url := GEMINI_API_URL ++ lit "?key=" ++ GEMINI_API_KEY env;
     method := lit "POST";
     headers := [(lit "Content-Type", lit "application/json")];
     body := GenerateContent (prompt env classification probability) |}.

Definition getGeminiAssessment (env : Env) (classification : jsstr)
  (probability : number) : outcome assessment_value :=
  try_catch
    (response <- fetch env (gemini_request env classification probability) ;;
     if negb (ok response) then
       Return (getFallbackAssessment classification)
     else
       data <- json response ;;
       text <- candidate_text data ;;
       a <- parse_assessment text ;;
       Return (Assessment a))
    (fun error => Return (getFallbackAssessment classification)).

(** *** analyzeImage *)

Definition predict_request (env : Env) (file : File) : request :=
  {| url := API_URL env ++ lit "/predict";
     method := lit "POST";
     headers := [];
     body := FormData [(lit "file", file)] |}.

Definition analyzeImage (env : Env) (file : File) : outcome value :=
  try_catch
    (response <- fetch env (predict_request env file) ;;
     if negb (ok response) then
       errorData <- promise_catch (json response) (fun _ => VObj []) ;;
       detail <- get_named errorData (lit "detail") ;;
       error <- new_Error env
                  (or_else detail
                     (VStr (lit "Server error: "
                            ++ integer_to_string (status response)))) ;;
       Throw error
     else
       json response)
    (fun error => Throw error).

(** *** checkServerHealth *)

Definition health_request (env : Env) : request :=
  {| url := API_URL env ++ lit "/health";
     method := lit "GET";
     headers := [];
     body := NoBody |}.

Definition unhealthy : value :=
  VObj [ (lit "status", VStr (lit "unhealthy"));
         (lit "message", VStr (lit "Could not connect to server")) ].

Definition checkServerHealth (env : Env) : outcome value :=
  try_catch
    (response <- fetch env (health_request env) ;;
     json response)
    (fun error => Return unhealthy).

End Api.
Export Api.

(* ================================================================== *)
(** ** Notions used to state the properties *)

Module Props.

(** Does the label [p] match at the head of [s], whatever the case? *)
Definition starts_ci (p s : jsstr) : bool :=
  match strip_prefix_ci p s with
  | Some _ => true
  | None => false
  end.

(** [l] is the label [p] up to the case of its letters. *)
Definition spells (p l : jsstr) : Prop := strip_prefix_ci p l = Some [].

(** The number of positions of [s] at which the label [p] matches. *)
Fixpoint occurrences (p s : jsstr) : nat :=
  match s with
  | [] => if starts_ci p [] then 1 else 0
  | _ :: s' => ((if starts_ci p s then 1 else 0) + occurrences p s')%nat
  end.

(** No match of [p] in [a ++ b] starts inside [a]. *)
Fixpoint free (p a b : jsstr) : bool :=
  match a with
  | [] => true
  | _ :: a' => negb (starts_ci p (a ++ b)) && free p a' b
  end.

(** What follows the leftmost match of the label [p] in [s]. *)
Fixpoint after_label (p s : jsstr) : option jsstr :=
  match strip_prefix_ci p s with
  | Some rest => Some rest
  | None =>
      match s with
      | [] => None
      | _ :: s' => after_label p s'
      end
  end.

(** The shortest prefix of [s] whose remainder satisfies [stop]; all of [s]
    when no remainder does. *)
Fixpoint until (stop : jsstr -> bool) (s : jsstr) : jsstr :=
  if stop s then []
  else
    match s with
    | [] => []
    | x :: s' => x :: until stop s'
    end.

Definition at_end (s : jsstr) : bool :=
  match s with
  | [] => true
  | _ :: _ => false
  end.

(** The remainder starts with the label [p], or is empty. *)
Definition label_or_end (p : jsstr) (s : jsstr) : bool := starts_ci p s || at_end s.

(** The common shape of the three patterns: a label, white space, a lazy
    capture, and a test [tail] of what follows the capture. *)
Definition section_pattern (label : jsstr) (tail : regex) : regex :=
  Seq (Chars label) (Seq (Star Space) (Seq (Group (LazyStar Any)) tail)).

(** The three fields of an assessment, with the pattern and the default of
    each in [parse_assessment]. *)
Inductive field := Description | Cause | Remedy.

Definition pattern_of (f : field) : regex :=
  match f with
  | Description => descriptionRe
  | Cause => causeRe
  | Remedy => remedyRe
  end.

Definition default_of (f : field) : jsstr :=
  match f with
  | Description => lit "Assessment not available."
  | Cause => lit "Cause assessment not available."
  | Remedy => lit "Please consult with a healthcare professional."
  end.

Definition project (f : field) (a : GeminiAssessment) : jsstr :=
  match f with
  | Description => description a
  | Cause => cause a
  | Remedy => remedy a
  end.

(** The match of a field's pattern found no label, or captured text that
    trims to the empty string. *)
Definition blank (m : option captures) : Prop :=
  match m with
  | None | Some None => True
  | Some (Some c) => trim c = []
  end.

(** The generative endpoint answers the request of
    [getGeminiAssessment env classification probability] with a success
    status and a body whose candidate text is the string [text]. *)
Definition generated (env : Env) (classification : jsstr)
  (probability : number) (text : jsstr) : Prop :=
  exists resp data,
    fetch env (gemini_request env classification probability) = Return resp
    /\ ok resp = true
    /\ json resp = Return data
    /\ candidate_text data = Return (VStr text).

(** An environment whose network gives the same outcome to every request. *)
Definition env_with (reply : outcome response) : Env :=
  {| NEXT_PUBLIC_API_URL := None;
     NEXT_PUBLIC_GEMINI_API_KEY := None;
     fetch := fun _ => reply;
     toFixed1 := fun _ => lit "87.5";
     ToString := fun _ => Return (lit "[object Object]") |}.

(** The body [{candidates: [{content: {parts: [{text}]}}]}]. *)
Definition candidates_body (text : jsstr) : value :=
  VObj [(lit "candidates",
         VArr [VObj [(lit "content",
                      VObj [(lit "parts",
                             VArr [VObj [(lit "text", VStr text)]])])]])].

Definition success_with (text : jsstr) : outcome response :=
  Return {| status := 200; json := Return (candidates_body text) |}.

Definition network_down : outcome response :=
  Throw (EnvFailure (lit "TypeError") (lit "Failed to fetch")).

Definition sample_file : File :=
  {| file_name := lit "retina.png"; file_type := lit "image/png";
     file_bytes := [137; 80; 78; 71] |}.

(** 87.5 as a double. *)
Definition sample_probability : number := S754_finite false 6157265115545600%positive (-46)%Z.

End Props.
Export Props.

(* ================================================================== *)
(** ** Notions used to state further properties of the module *)

Module Shape.

(** The label that opens the section of a field. *)
Definition label_of (f : field) : jsstr :=
  match f with
  | Description => lit "DESCRIPTION:"
  | Cause => lit "CAUSE:"
  | Remedy => lit "REMEDY:"
  end.

(** None of the three texts of an assessment is the empty string. *)
Definition filled (a : GeminiAssessment) : Prop :=
  description a <> [] /\ cause a <> [] /\ remedy a <> [].

Definition filledb (a : GeminiAssessment) : bool :=
  negb (at_end (description a)) && negb (at_end (cause a))
  && negb (at_end (remedy a)).

(** A string that [trim] leaves as it is: no white space at either end. *)
Definition trimmed (s : jsstr) : Prop := trim s = s.

Definition is_string (v : value) : bool :=
  match v with
  | VStr _ => true
  | _ => false
  end.

(** The three defaults of [parse_assessment]. *)
Definition defaults : GeminiAssessment :=
  {| description := default_of Description;
     cause := default_of Cause;
     remedy := default_of Remedy |}.

(** The five keys of the fallback table. *)
Definition known_labels : list jsstr := map fst assessments.

End Shape.
Export Shape.

(* ================================================================== *)
(** ** Labels up to the case of their letters

    What "the same label, whatever the case" means, said on the code units
    themselves and without the matcher: two code units are the same letter
    when they are equal, or when one is an ASCII capital and the other the
    small letter 32 places further. *)

Module Letters.

Definition is_upper (c : N) : bool := (65 <=? c) && (c <=? 90).
Definition is_lower (c : N) : bool := (97 <=? c) && (c <=? 122).

Definition same_letter (x y : N) : bool :=
  (x =? y) || (is_upper x && (y =? x + 32)) || (is_lower x && (x =? y + 32)).

(** [l] is the label [p], letter for letter, in any case. *)
Fixpoint reads_as (p l : jsstr) : bool :=
  match p, l with
  | [], [] => true
  | x :: p', y :: l' => same_letter x y && reads_as p' l'
  | _, _ => false
  end.

(** [s] begins with the label [p], in any case. *)
Fixpoint begins_with (p s : jsstr) : bool :=
  match p, s with
  | [], _ => true
  | x :: p', y :: s' => same_letter x y && begins_with p' s'
  | _ :: _, [] => false
  end.

(** How many times the label [p] is present in [s], in any case. *)
Fixpoint label_count (p s : jsstr) : nat :=
  match s with
  | [] => if begins_with p [] then 1 else 0
  | _ :: s' => ((if begins_with p s then 1 else 0) + label_count p s')%nat
  end.

(** The text [t] of a section, or [dflt] when [t] is empty. *)
Definition text_or (t dflt : jsstr) : jsstr :=
  match t with
  | [] => dflt
  | _ :: _ => t
  end.

End Letters.
Export Letters.

(* ================================================================== *)
(** ** The matcher on the three patterns *)

Section Matcher.

Lemma exec_unfold (r : regex) (s : jsstr) :
  exec r s =
  match run r accept s None with
  | Some cap => Some cap
  | None =>
      match s with
      | [] => None
      | _ :: s' => exec r s'
      end
  end.
Proof. now destruct s. Qed.

Lemma star_greedy_spaces (k : cont) (s : jsstr) (cap : captures) (r : captures) :
  k (skip_spaces s) cap = Some r ->
  star_greedy Space k s cap = Some r.
Proof.
  induction s as [|x s IH]; simpl; intro H.
  - exact H.
  - destruct (is_space x).
    + now rewrite (IH H).
    + exact H.
Qed.

Lemma until_nil (stop : jsstr -> bool) : until stop [] = [].
Proof. simpl. now destruct (stop []). Qed.

Lemma until_cons (stop : jsstr -> bool) (x : N) (s : jsstr) :
  until stop (x :: s) = if stop (x :: s) then [] else x :: until stop s.
Proof. reflexivity. Qed.

Lemma firstn_prefix (pre s : jsstr) :
  firstn (List.length (pre ++ s) - List.length s) (pre ++ s) = pre.
Proof.
  rewrite length_app.
  replace (List.length pre + List.length s - List.length s)%nat
    with (List.length pre + 0)%nat by lia.
  rewrite firstn_app_2. simpl. now rewrite app_nil_r.
Qed.

(** The lazy star under a capture group, followed by a test of what is
    left: the group captures up to the first remainder that passes. *)
Lemma star_lazy_capture (stop : jsstr -> bool) (whole : jsstr) (k : cont) :
  stop [] = true ->
  (forall s' c, k s' c =
     if stop s'
     then Some (Some (firstn (List.length whole - List.length s') whole))
     else None) ->
  forall s pre cap,
    whole = pre ++ s ->
    star_lazy Any k s cap = Some (Some (pre ++ until stop s)).
Proof.
  intros Hnil Hk s.
  induction s as [|x s IH]; intros pre cap Hw.
  - rewrite until_nil. simpl star_lazy. rewrite Hk, Hnil. subst whole.
    now rewrite firstn_prefix, app_nil_r.
  - rewrite until_cons. simpl star_lazy. rewrite Hk.
    destruct (stop (x :: s)) eqn:E.
    + subst whole. now rewrite firstn_prefix, app_nil_r.
    + rewrite (IH (pre ++ [x]) cap).
      * now rewrite <- app_assoc.
      * subst whole. now rewrite <- app_assoc.
Qed.

Lemma run_ahead_label_or_end (p s : jsstr) (c : captures) :
  run (Ahead (Alt (Chars p) EndOfInput)) accept s c =
  if label_or_end p s then Some c else None.
Proof.
  unfold label_or_end, starts_ci. simpl.
  destruct (strip_prefix_ci p s); simpl; [reflexivity|].
  now destruct s.
Qed.

Lemma run_end_of_input (s : jsstr) (c : captures) :
  run EndOfInput accept s c = if at_end s then Some c else None.
Proof. now destruct s. Qed.

Variables (label : jsstr) (tail : regex) (stop : jsstr -> bool).
Hypothesis stop_nil : stop [] = true.
Hypothesis tail_stop :
  forall s c, run tail accept s c = if stop s then Some c else None.

Lemma run_section_pattern (s : jsstr) :
  run (section_pattern label tail) accept s None =
  match strip_prefix_ci label s with
  | Some rest => Some (Some (until stop (skip_spaces rest)))
  | None => None
  end.
Proof.
  unfold section_pattern. simpl run.
  destruct (strip_prefix_ci label s) as [rest|]; [|reflexivity].
  apply star_greedy_spaces.
  simpl run.
  apply (star_lazy_capture stop (skip_spaces rest)) with (pre := []);
    [exact stop_nil | | reflexivity].
  intros s' c. now rewrite tail_stop.
Qed.

Lemma exec_section_pattern (s : jsstr) :
  exec (section_pattern label tail) s =
  match after_label label s with
  | Some rest => Some (Some (until stop (skip_spaces rest)))
  | None => None
  end.
Proof.
  induction s as [|x s IH]; rewrite exec_unfold, run_section_pattern;
    simpl after_label.
  - now destruct (strip_prefix_ci label []).
  - destruct (strip_prefix_ci label (x :: s)); [reflexivity|exact IH].
Qed.

End Matcher.

Lemma label_or_end_nil (p : jsstr) : label_or_end p [] = true.
Proof. unfold label_or_end. simpl. apply orb_true_r. Qed.

Lemma exec_descriptionRe (s : jsstr) :
  exec descriptionRe s =
  match after_label (lit "DESCRIPTION:") s with
  | Some rest =>
      Some (Some (until (label_or_end (lit "CAUSE:")) (skip_spaces rest)))
  | None => None
  end.
Proof.
  apply (exec_section_pattern (lit "DESCRIPTION:") _ (label_or_end (lit "CAUSE:"))).
  - apply label_or_end_nil.
  - apply run_ahead_label_or_end.
Qed.

Lemma exec_causeRe (s : jsstr) :
  exec causeRe s =
  match after_label (lit "CAUSE:") s with
  | Some rest =>
      Some (Some (until (label_or_end (lit "REMEDY:")) (skip_spaces rest)))
  | None => None
  end.
Proof.
  apply (exec_section_pattern (lit "CAUSE:") _ (label_or_end (lit "REMEDY:"))).
  - apply label_or_end_nil.
  - apply run_ahead_label_or_end.
Qed.

Lemma until_at_end (s : jsstr) : until at_end s = s.
Proof. induction s as [|x s IH]; simpl; [reflexivity | now rewrite IH]. Qed.

Lemma exec_remedyRe (s : jsstr) :
  exec remedyRe s =
  match after_label (lit "REMEDY:") s with
  | Some rest => Some (Some (skip_spaces rest))
  | None => None
  end.
Proof.
  change remedyRe with (section_pattern (lit "REMEDY:") EndOfInput).
  rewrite (exec_section_pattern (lit "REMEDY:") EndOfInput at_end eq_refl run_end_of_input).
  destruct (after_label (lit "REMEDY:") s); [|reflexivity].
  now rewrite until_at_end.
Qed.

(* ================================================================== *)
(** ** Labels and white space in a text *)

Lemma spells_prefix (p l rest : jsstr) :
  spells p l -> strip_prefix_ci p (l ++ rest) = Some rest.
Proof.
  unfold spells. revert l.
  induction p as [|x p IH]; intros l H.
  - simpl in H. injection H as ->. reflexivity.
  - destruct l as [|y l]; simpl in H; [discriminate|].
    simpl. destruct (canonicalize x =? canonicalize y); [|discriminate].
    now apply IH.
Qed.

Lemma spells_starts (p l rest : jsstr) :
  spells p l -> starts_ci p (l ++ rest) = true.
Proof. intro H. unfold starts_ci. now rewrite (spells_prefix _ _ rest H). Qed.

Lemma occurrences_head (p s : jsstr) :
  starts_ci p s = true -> (1 <= occurrences p s)%nat.
Proof. intro H. destruct s; simpl; rewrite H; lia. Qed.

Lemma occurrences_app_ge (p a b : jsstr) :
  (occurrences p b <= occurrences p (a ++ b))%nat.
Proof.
  induction a as [|x a IH]; simpl; [lia|].
  destruct (starts_ci p (x :: a ++ b)); lia.
Qed.

(** A label that occurs once, and at the head of [b], does not occur
    before. *)
Lemma once_free (p a b : jsstr) :
  occurrences p (a ++ b) = 1%nat -> starts_ci p b = true -> free p a b = true.
Proof.
  intros H Hb. pose proof (occurrences_head p b Hb) as Hge.
  induction a as [|x a IH]; [reflexivity|].
  simpl in H. simpl free.
  pose proof (occurrences_app_ge p a b) as Hle.
  destruct (starts_ci p (x :: a ++ b)); simpl.
  - lia.
  - apply IH. lia.
Qed.

Lemma free_app_r (p a1 a2 b : jsstr) :
  free p (a1 ++ a2) b = true -> free p a2 b = true.
Proof.
  induction a1 as [|x a1 IH]; simpl; [auto|].
  intro H. apply andb_true_iff in H. now apply IH.
Qed.

Lemma free_after_label (p a b rest : jsstr) :
  free p a b = true -> strip_prefix_ci p b = Some rest ->
  after_label p (a ++ b) = Some rest.
Proof.
  intros Hf Hb. induction a as [|x a IH].
  - simpl. destruct b; simpl; now rewrite Hb.
  - simpl in Hf. apply andb_true_iff in Hf. destruct Hf as [Hx Hf].
    unfold starts_ci in Hx. simpl app in *. simpl after_label.
    destruct (strip_prefix_ci p (x :: a ++ b)); [discriminate|].
    now apply IH.
Qed.

Lemma free_until (p a b : jsstr) :
  free p a b = true -> starts_ci p b = true ->
  until (label_or_end p) (a ++ b) = a.
Proof.
  intros Hf Hb. induction a as [|x a IH].
  - simpl app. destruct b; simpl; unfold label_or_end; now rewrite Hb.
  - simpl in Hf. apply andb_true_iff in Hf. destruct Hf as [Hx Hf].
    simpl app in *. rewrite until_cons. unfold label_or_end at 1.
    apply negb_true_iff in Hx. rewrite Hx. simpl.
    now rewrite IH.
Qed.

Lemma skip_spaces_suffix (s : jsstr) : exists ws, s = ws ++ skip_spaces s.
Proof.
  induction s as [|x s [ws IH]]; [now exists []|].
  simpl. destruct (is_space x).
  - exists (x :: ws). simpl. now rewrite <- IH.
  - now exists [].
Qed.

Lemma skip_spaces_app (s r : jsstr) :
  skip_spaces s <> [] -> skip_spaces (s ++ r) = skip_spaces s ++ r.
Proof.
  induction s as [|x s IH]; simpl; [congruence|].
  destruct (is_space x); auto.
Qed.

Lemma skip_spaces_idem (s : jsstr) : skip_spaces (skip_spaces s) = skip_spaces s.
Proof.
  induction s as [|x s IH]; simpl; [reflexivity|].
  destruct (is_space x) eqn:E; [exact IH|]. simpl. now rewrite E.
Qed.

Lemma trim_skip_spaces (s : jsstr) : trim (skip_spaces s) = trim s.
Proof. unfold trim. now rewrite skip_spaces_idem. Qed.

Lemma trim_not_blank (s : jsstr) : trim s <> [] -> skip_spaces s <> [].
Proof. unfold trim. intros H E. apply H. now rewrite E. Qed.

(** A section [s] between its label and the next label [l], which occurs
    nowhere else: the capture is [s] without its leading white space. *)
Lemma capture_up_to_label (p l s rest : jsstr) :
  spells p l -> free p s (l ++ rest) = true -> trim s <> [] ->
  until (label_or_end p) (skip_spaces (s ++ l ++ rest)) = skip_spaces s.
Proof.
  intros Hl Hf Ht.
  rewrite skip_spaces_app by now apply trim_not_blank.
  apply free_until; [|now apply spells_starts].
  destruct (skip_spaces_suffix s) as [ws E].
  rewrite E in Hf. now apply free_app_r in Hf.
Qed.

Lemma section_trimmed (c dflt : jsstr) :
  trim c <> [] -> section (Some (Some c)) dflt = trim c.
Proof. simpl. destruct (trim c); congruence. Qed.

(* ================================================================== *)
(** ** getGeminiAssessment *)

(** The three sections read off a candidate text. *)
Lemma parse_assessment_string (text : jsstr) :
  parse_assessment (VStr text) =
  Return {| description := section (exec descriptionRe text) (default_of Description);
            cause := section (exec causeRe text) (default_of Cause);
            remedy := section (exec remedyRe text) (default_of Remedy) |}.
Proof. reflexivity. Qed.

Lemma generated_parsed (env : Env) (classification : jsstr)
  (probability : number) (text : jsstr) :
  generated env classification probability text ->
  getGeminiAssessment env classification probability =
  Return (Assessment
            {| description := section (exec descriptionRe text) (default_of Description);
               cause := section (exec causeRe text) (default_of Cause);
               remedy := section (exec remedyRe text) (default_of Remedy) |}).
Proof.
  intros (resp & data & Hf & Hok & Hj & Ht).
  unfold getGeminiAssessment. rewrite Hf. simpl bind. rewrite Hok. simpl negb.
  cbv iota. rewrite Hj. simpl bind. rewrite Ht. reflexivity.
Qed.

(** Whatever the network and the body do, the promise is fulfilled. *)
Lemma getGeminiAssessment_resolves (env : Env) (classification : jsstr)
  (probability : number) :
  resolves (getGeminiAssessment env classification probability).
Proof.
  unfold getGeminiAssessment, resolves.
  destruct (_ <- fetch env _ ;; _) as [v|e]; simpl; eauto.
Qed.

(** Every exception of the [try] block ends in the fallback lookup. *)
Lemma getGeminiAssessment_fetch_throws (env : Env) (classification : jsstr)
  (probability : number) (e : thrown) :
  fetch env (gemini_request env classification probability) = Throw e ->
  getGeminiAssessment env classification probability =
  Return (getFallbackAssessment classification).
Proof. intro H. unfold getGeminiAssessment. now rewrite H. Qed.

Lemma getGeminiAssessment_json_throws (env : Env) (classification : jsstr)
  (probability : number) (resp : response) (e : thrown) :
  fetch env (gemini_request env classification probability) = Return resp ->
  json resp = Throw e ->
  getGeminiAssessment env classification probability =
  Return (getFallbackAssessment classification).
Proof.
  intros H Hj. unfold getGeminiAssessment. rewrite H. simpl bind.
  destruct (negb (ok resp)); [reflexivity|]. now rewrite Hj.
Qed.

Lemma getGeminiAssessment_parse_throws (env : Env) (classification : jsstr)
  (probability : number) (resp : response) (data : value) (e : thrown) :
  fetch env (gemini_request env classification probability) = Return resp ->
  json resp = Return data ->
  (text <- candidate_text data ;; parse_assessment text) = Throw e ->
  getGeminiAssessment env classification probability =
  Return (getFallbackAssessment classification).
Proof.
  intros H Hj Hp. unfold getGeminiAssessment. rewrite H. simpl bind.
  destruct (negb (ok resp)); [reflexivity|]. rewrite Hj. simpl bind.
  destruct (candidate_text data) as [text|e1]; simpl in *; [|reflexivity].
  now rewrite Hp.
Qed.

Lemma same_letter_canonicalize (x y : N) :
  same_letter x y = (canonicalize x =? canonicalize y).
Proof.
  unfold same_letter, is_upper, is_lower, canonicalize.
  repeat match goal with
         | |- context [?a <=? ?b] => destruct (N.leb_spec a b)
         end;
    cbn [andb orb];
    repeat match goal with
           | |- context [?a =? ?b] => destruct (N.eqb_spec a b)
           end;
    cbn [andb orb]; try reflexivity; lia.
Qed.

Lemma begins_with_starts_ci (p s : jsstr) : begins_with p s = starts_ci p s.
Proof.
  unfold starts_ci. revert s.
  induction p as [|x p IH]; intros [|y s]; simpl; try reflexivity.
  rewrite same_letter_canonicalize.
  destruct (canonicalize x =? canonicalize y); simpl; [apply IH|reflexivity].
Qed.

Lemma label_count_occurrences (p s : jsstr) : label_count p s = occurrences p s.
Proof.
  induction s as [|x s IH]; simpl.
  - now rewrite begins_with_starts_ci.
  - now rewrite begins_with_starts_ci, IH.
Qed.

Lemma reads_as_spells (p l : jsstr) : reads_as p l = true -> spells p l.
Proof.
  unfold spells. revert l.
  induction p as [|x p IH]; intros [|y l]; simpl; try discriminate.
  - reflexivity.
  - rewrite same_letter_canonicalize.
    destruct (canonicalize x =? canonicalize y); simpl; [apply IH|discriminate].
Qed.

Lemma is_space_canonicalize (y : N) : is_space y = true -> canonicalize y = y.
Proof.
  unfold canonicalize. intro H.
  destruct ((97 <=? y) && (y <=? 122)) eqn:E; [|reflexivity].
  apply andb_true_iff in E. destruct E as [E1 E2].
  apply N.leb_le in E1. apply N.leb_le in E2.
  unfold is_space in H.
  repeat match type of H with
         | context [?a <=? ?b] => destruct (N.leb_spec a b)
         | context [?a =? ?b] => destruct (N.eqb_spec a b)
         end; simpl in H; try discriminate H; lia.
Qed.

(** A label whose first character is not white space: where it stands, no
    white space is skipped. *)
Lemma skip_spaces_label (x : N) (p l rest : jsstr) :
  is_space (canonicalize x) = false ->
  spells (x :: p) l ->
  skip_spaces (l ++ rest) = l ++ rest.
Proof.
  unfold spells. intros Hx H.
  destruct l as [|y l]; simpl in H; [discriminate|].
  destruct (N.eqb_spec (canonicalize x) (canonicalize y)) as [E|]; [|discriminate].
  simpl. destruct (is_space y) eqn:S; [|reflexivity].
  rewrite (is_space_canonicalize _ S) in E. congruence.
Qed.

Lemma skip_spaces_app_fixed (s r : jsstr) :
  skip_spaces r = r -> skip_spaces (s ++ r) = skip_spaces s ++ r.
Proof.
  intro H. induction s as [|x s IH]; simpl; [exact H|].
  now destruct (is_space x).
Qed.

(** A section [s] between its label and the next label, which occurs
    nowhere in [s]: the capture is [s] without its leading white space, be
    [s] blank or not. *)
Lemma capture_before_label (x : N) (p l s rest : jsstr) :
  is_space (canonicalize x) = false ->
  spells (x :: p) l ->
  free (x :: p) s (l ++ rest) = true ->
  until (label_or_end (x :: p)) (skip_spaces (s ++ l ++ rest)) = skip_spaces s.
Proof.
  intros Hx Hl Hf.
  rewrite skip_spaces_app_fixed by exact (skip_spaces_label _ _ _ _ Hx Hl).
  apply free_until; [|now apply spells_starts].
  destruct (skip_spaces_suffix s) as [ws E].
  rewrite E in Hf. now apply free_app_r in Hf.
Qed.

Lemma section_text_or (c dflt : jsstr) :
  section (Some (Some (skip_spaces c))) dflt = text_or (trim c) dflt.
Proof.
  simpl. rewrite trim_skip_spaces. unfold text_or. now destruct (trim c).
Qed.

(** C4, as the code has it.  When the generative endpoint answers with
    success and the candidate text reads [DESCRIPTION: A], then [CAUSE: B],
    then [REMEDY: C], the labels in any case of their letters and each
    present once, [getGeminiAssessment] resolves to the assessment whose
    description, cause and remedy are the three sections, trimmed; a section
    that trims to the empty string gives the default of its field
    instead. *)
Theorem well_formed_text_parsed
  (env : Env) (classification : jsstr) (probability : number)
  (pre l1 A l2 B l3 C text : jsstr) :
  text = pre ++ l1 ++ A ++ l2 ++ B ++ l3 ++ C ->
  reads_as (lit "DESCRIPTION:") l1 = true ->
  reads_as (lit "CAUSE:") l2 = true ->
  reads_as (lit "REMEDY:") l3 = true ->
  label_count (lit "DESCRIPTION:") text = 1%nat ->
  label_count (lit "CAUSE:") text = 1%nat ->
  label_count (lit "REMEDY:") text = 1%nat ->
  generated env classification probability text ->
  getGeminiAssessment env classification probability =
  Return (Assessment
            {| description := text_or (trim A) (lit "Assessment not available.");
               cause := text_or (trim B) (lit "Cause assessment not available.");
               remedy := text_or (trim C)
                           (lit "Please consult with a healthcare professional.") |}).
Proof.
  intros Htext R1 R2 R3 O1 O2 O3 Hgen.
  apply reads_as_spells in R1, R2, R3.
  rewrite label_count_occurrences in O1, O2, O3.
  rewrite (generated_parsed _ _ _ _ Hgen).
  rewrite exec_descriptionRe, exec_causeRe, exec_remedyRe.
  assert (F1 : free (lit "DESCRIPTION:") pre (l1 ++ A ++ l2 ++ B ++ l3 ++ C) = true).
  { apply once_free; [now rewrite <- Htext | now apply spells_starts]. }
  assert (F2 : free (lit "CAUSE:") (pre ++ l1 ++ A) (l2 ++ B ++ l3 ++ C) = true).
  { apply once_free; [|now apply spells_starts].
    rewrite <- O2, Htext. f_equal. now rewrite <- !app_assoc. }
  assert (F3 : free (lit "REMEDY:") (pre ++ l1 ++ A ++ l2 ++ B) (l3 ++ C) = true).
  { apply once_free; [|now apply spells_starts].
    rewrite <- O3, Htext. f_equal. now rewrite <- !app_assoc. }
  assert (E1 : after_label (lit "DESCRIPTION:") text = Some (A ++ l2 ++ B ++ l3 ++ C)).
  { rewrite Htext. apply free_after_label; [exact F1 | now apply spells_prefix]. }
  assert (E2 : after_label (lit "CAUSE:") text = Some (B ++ l3 ++ C)).
  { rewrite Htext.
    replace (pre ++ l1 ++ A ++ l2 ++ B ++ l3 ++ C)
      with ((pre ++ l1 ++ A) ++ l2 ++ B ++ l3 ++ C) by now rewrite <- !app_assoc.
    apply free_after_label; [exact F2 | now apply spells_prefix]. }
  assert (E3 : after_label (lit "REMEDY:") text = Some C).
  { rewrite Htext.
    replace (pre ++ l1 ++ A ++ l2 ++ B ++ l3 ++ C)
      with ((pre ++ l1 ++ A ++ l2 ++ B) ++ l3 ++ C) by now rewrite <- !app_assoc.
    apply free_after_label; [exact F3 | now apply spells_prefix]. }
  rewrite E1, E2, E3.
  change (lit "CAUSE:") with (67 :: lit "AUSE:") in *.
  change (lit "REMEDY:") with (82 :: lit "EMEDY:") in *.
  rewrite (capture_before_label 67 _ l2 A (B ++ l3 ++ C) eq_refl R2).
  2:{ replace (pre ++ l1 ++ A) with ((pre ++ l1) ++ A) in F2 by now rewrite <- app_assoc.
      now apply free_app_r in F2. }
  rewrite (capture_before_label 82 _ l3 B C eq_refl R3).
  2:{ replace (pre ++ l1 ++ A ++ l2 ++ B) with ((pre ++ l1 ++ A ++ l2) ++ B) in F3
        by now rewrite <- !app_assoc.
      now apply free_app_r in F3. }
  now rewrite !section_text_or.
Qed.

(** The text of the specification with the labels in three different cases,
    [Description: A\ncause: B\nREMEDY: C], after a line of greeting. *)
Lemma well_formed_text_parsed_witness :
  getGeminiAssessment
    (env_with (success_with
                 (lit "Here it is." ++ newline
                  ++ lit "Description: A" ++ newline ++ lit "cause: B" ++ newline
                  ++ lit "REMEDY: C")))
    (lit "Moderate") sample_probability =
  Return (Assessment {| description := lit "A"; cause := lit "B"; remedy := lit "C" |}).
Proof.
  refine (well_formed_text_parsed
            (env_with (success_with
                         (lit "Here it is." ++ newline
                          ++ lit "Description: A" ++ newline ++ lit "cause: B"
                          ++ newline ++ lit "REMEDY: C")))
            (lit "Moderate") sample_probability
            (lit "Here it is." ++ newline)
            (lit "Description:") (lit " A" ++ newline)
            (lit "cause:") (lit " B" ++ newline) (lit "REMEDY:") (lit " C")
            _ eq_refl eq_refl eq_refl eq_refl eq_refl eq_refl eq_refl _).
  eexists. eexists. repeat split.
Defined.

(** C4, as stated, fails.  The text [DESCRIPTION: \nCAUSE: B\nREMEDY: C] has
    the well-formed shape, with nothing but white space for [A]: the
    description returned is not that section trimmed, which is the empty
    string, but the default of the field. *)
Lemma blank_section_not_returned :
  trim (lit " " ++ newline) = []
  /\ getGeminiAssessment
       (env_with (success_with
                    (lit "DESCRIPTION: " ++ newline ++ lit "CAUSE: B" ++ newline
                     ++ lit "REMEDY: C")))
       (lit "Moderate") sample_probability
     = Return (Assessment {| description := lit "Assessment not available.";
                             cause := lit "B"; remedy := lit "C" |})
  /\ ~ (forall (env : Env) (classification : jsstr) (probability : number)
               (pre l1 A l2 B l3 C text : jsstr),
          text = pre ++ l1 ++ A ++ l2 ++ B ++ l3 ++ C ->
          reads_as (lit "DESCRIPTION:") l1 = true ->
          reads_as (lit "CAUSE:") l2 = true ->
          reads_as (lit "REMEDY:") l3 = true ->
          label_count (lit "DESCRIPTION:") text = 1%nat ->
          label_count (lit "CAUSE:") text = 1%nat ->
          label_count (lit "REMEDY:") text = 1%nat ->
          generated env classification probability text ->
          getGeminiAssessment env classification probability =
          Return (Assessment
                    {| description := trim A; cause := trim B; remedy := trim C |})).
Proof.
  split; [reflexivity|]. split; [reflexivity|].
  intro claim.
  specialize (claim
    (env_with (success_with
                 (lit "DESCRIPTION: " ++ newline ++ lit "CAUSE: B" ++ newline
                  ++ lit "REMEDY: C")))
    (lit "Moderate") sample_probability
    [] (lit "DESCRIPTION:") (lit " " ++ newline)
    (lit "CAUSE:") (lit " B" ++ newline) (lit "REMEDY:") (lit " C")
    _ eq_refl eq_refl eq_refl eq_refl eq_refl eq_refl eq_refl).
  assert (G : generated
                (env_with (success_with
                             (lit "DESCRIPTION: " ++ newline ++ lit "CAUSE: B"
                              ++ newline ++ lit "REMEDY: C")))
                (lit "Moderate") sample_probability
                (lit "DESCRIPTION: " ++ newline ++ lit "CAUSE: B" ++ newline
                 ++ lit "REMEDY: C")).
  { eexists. eexists. repeat split. }
  specialize (claim G). vm_compute in claim. discriminate claim.
Qed.

(* ================================================================== *)
(** ** getFallbackAssessment *)

Lemma jsstr_eqb_eq (a b : jsstr) : jsstr_eqb a b = true <-> a = b.
Proof.
  revert b. induction a as [|x a IH]; intros [|y b]; simpl; split;
    try congruence.
  - intro H. apply andb_true_iff in H. destruct H as [H1 H2].
    apply N.eqb_eq in H1. apply IH in H2. congruence.
  - intro H. injection H as -> ->. rewrite N.eqb_refl. simpl. now apply IH.
Qed.

Lemma own_entry_none (key : jsstr) (table : list (jsstr * GeminiAssessment)) :
  ~ In key (map fst table) -> own_entry key table = None.
Proof.
  induction table as [|[k a] table IH]; simpl; [reflexivity|].
  intro H. destruct (jsstr_eqb k key) eqn:E.
  - apply jsstr_eqb_eq in E. tauto.
  - apply IH. tauto.
Qed.

Lemma existsb_eqb_false (key : jsstr) (l : list jsstr) :
  ~ In key l -> existsb (jsstr_eqb key) l = false.
Proof.
  induction l as [|k l IH]; simpl; [reflexivity|].
  intro H. destruct (jsstr_eqb key k) eqn:E.
  - apply jsstr_eqb_eq in E. subst. tauto.
  - apply IH. tauto.
Qed.

(** Outside the five labels and the names that every object inherits, the
    lookup synthesizes the generic assessment: the label opens the
    description, and the cause and the remedy are the generic ones. *)
Lemma fallback_generic (classification : jsstr) :
  ~ In classification (map fst assessments) ->
  ~ In classification Object_prototype_keys ->
  getFallbackAssessment classification =
  Assessment
    {| description := classification ++ lit " has been detected in your retinal scan. This condition affects the blood vessels in the retina and may impact your vision if left untreated. The severity level indicates how much the retina has been affected by diabetes-related changes.";
       cause := lit "Diabetic retinopathy is generally caused by prolonged high blood sugar levels damaging the blood vessels in the retina. Contributing factors may include duration of diabetes, blood pressure, cholesterol levels, and overall diabetes management.";
       remedy := lit "Please consult with an ophthalmologist for a comprehensive eye examination and treatment plan." |}.
Proof.
  intros H5 Hp. unfold getFallbackAssessment, table_get.
  rewrite (own_entry_none _ _ H5), (existsb_eqb_false _ _ Hp). reflexivity.
Qed.

(** A name that the table inherits and does not define reads as the
    inherited member, which is truthy, so the generic assessment is not
    synthesized. *)
Lemma fallback_inherited (classification : jsstr) :
  In classification Object_prototype_keys ->
  getFallbackAssessment classification = Inherited classification.
Proof.
  intro H. unfold Object_prototype_keys in H. simpl in H.
  repeat (destruct H as [<-|H]; [reflexivity|]). contradiction.
Qed.

(** C2. For a label outside the five known categories the specification
    promises the generic assessment.  The label [constructor] is outside
    the five, yet [getFallbackAssessment] returns for it the member
    [constructor] that the table inherits from [Object.prototype], not the
    generic assessment (nor any assessment). *)
Theorem fallback_constructor_not_generic :
  ~ In (lit "constructor") (map fst assessments)
  /\ getFallbackAssessment (lit "constructor") = Inherited (lit "constructor")
  /\ forall a, getFallbackAssessment (lit "constructor") <> Assessment a.
Proof.
  split; [|split].
  - simpl. intros H. repeat (destruct H as [H|H]; [discriminate H|]). exact H.
  - reflexivity.
  - intros a H. discriminate H.
Qed.

(** C3. For each of the five known labels, [getFallbackAssessment] returns
    the description, the cause and the remedy written for that label in the
    table, character for character. *)
Theorem fallback_known_labels :
  getFallbackAssessment (lit "No DR") =
  Assessment
    {| description := lit "Your retinal scan shows no signs of diabetic retinopathy. The blood vessels in your retina appear healthy without any diabetes-related damage. This is an excellent result, but continued monitoring is important as diabetic retinopathy can develop over time in people with diabetes.";
       cause := lit "Not applicable - no diabetic retinopathy detected. Your current diabetes management appears to be effectively protecting your eye health.";
       remedy := lit "Maintain regular annual eye exams and keep your blood sugar levels well controlled." |}
  /\
  getFallbackAssessment (lit "Mild") =
  Assessment
    {| description := lit "Your scan indicates mild non-proliferative diabetic retinopathy (NPDR). Small areas of balloon-like swelling called microaneurysms have been detected in the retina's blood vessels. At this early stage, there is typically no noticeable vision loss, but it signals that diabetes is beginning to affect your eyes.";
       cause := lit "This early stage may be caused by prolonged periods of elevated blood sugar levels, which weaken the tiny blood vessels in the retina. Contributing factors could include inconsistent diabetes management, high blood pressure, or duration of diabetes.";
       remedy := lit "Schedule a follow-up with your ophthalmologist within 6-12 months and focus on strict blood sugar control." |}
  /\
  getFallbackAssessment (lit "Moderate") =
  Assessment
    {| description := lit "Moderate non-proliferative diabetic retinopathy has been detected. The blood vessels in your retina are showing more significant damage, with some vessels becoming blocked. This can lead to reduced blood flow to parts of your retina and may start affecting your vision quality.";
       cause := lit "Progression to this stage is typically associated with chronic hyperglycemia over several years, combined with factors like uncontrolled hypertension, high cholesterol, or smoking. Inadequate diabetes management accelerates vessel damage.";
       remedy := lit "Consult your ophthalmologist within 3-6 months for detailed examination and potential treatment planning." |}
  /\
  getFallbackAssessment (lit "Severe") =
  Assessment
    {| description := lit "Your scan reveals severe non-proliferative diabetic retinopathy. Many blood vessels in your retina are blocked, depriving several areas of adequate blood supply. This significantly increases the risk of progression to proliferative diabetic retinopathy and potential vision loss.";
       cause := lit "Severe retinopathy usually results from years of poorly controlled diabetes with persistent high blood sugar, often compounded by hypertension and kidney disease. The extensive blockage indicates significant cumulative damage to retinal blood vessels.";
       remedy := lit "Seek urgent consultation with a retina specialist within 2-4 weeks for possible laser treatment or injections." |}
  /\
  getFallbackAssessment (lit "Proliferative DR") =
  Assessment
    {| description := lit "Proliferative diabetic retinopathy (PDR), the most advanced stage, has been detected. New, abnormal blood vessels are growing on the retina's surface. These fragile vessels can leak blood into the eye and cause retinal detachment, leading to severe vision loss or blindness if untreated.";
       cause := lit "PDR develops when severe oxygen deprivation triggers abnormal blood vessel growth. This typically results from long-standing diabetes with poor glycemic control, often combined with hypertension, nephropathy, and delayed treatment of earlier retinopathy stages.";
       remedy := lit "Seek immediate medical attention from a retina specialist for urgent treatment including laser therapy or vitrectomy." |}.
Proof. repeat split. Qed.

(* ================================================================== *)
(** ** getGeminiAssessment: fallbacks and defaults *)

(** C1. The promise of [getGeminiAssessment] is fulfilled for every
    classification, probability and environment, and an exception of the
    fetch is answered with the fallback lookup.  What it is fulfilled with
    is not always a [GeminiAssessment]: for the classification
    [constructor] and a network that is down, it is the member
    [constructor] inherited from [Object.prototype]. *)
Theorem gemini_fallback_constructor :
  (forall env classification probability,
      resolves (getGeminiAssessment env classification probability))
  /\ getGeminiAssessment (env_with network_down) (lit "constructor")
       sample_probability
     = Return (getFallbackAssessment (lit "constructor"))
  /\ getGeminiAssessment (env_with network_down) (lit "constructor")
       sample_probability
     = Return (Inherited (lit "constructor"))
  /\ forall a,
       getGeminiAssessment (env_with network_down) (lit "constructor")
         sample_probability
       <> Return (Assessment a).
Proof.
  split; [exact getGeminiAssessment_resolves|].
  split; [reflexivity|]. split; [reflexivity|].
  intros a H. discriminate H.
Qed.

(** C6. When the call to the generative endpoint completes with a status
    that is not a success, [getGeminiAssessment] resolves to
    [getFallbackAssessment classification], whatever the body is and
    whether or not it decodes. *)
Theorem failure_status_fallback
  (env : Env) (classification : jsstr) (probability : number)
  (resp : response) :
  fetch env (gemini_request env classification probability) = Return resp ->
  ok resp = false ->
  getGeminiAssessment env classification probability =
  Return (getFallbackAssessment classification).
Proof.
  intros Hf Hok. unfold getGeminiAssessment. rewrite Hf. simpl bind.
  now rewrite Hok.
Qed.

(** Status 500 with a body that would parse: the body is not looked at. *)
Lemma failure_status_fallback_witness :
  getGeminiAssessment
    (env_with (Return {| status := 500;
                         json := Return (candidates_body
                                           (lit "DESCRIPTION: A CAUSE: B REMEDY: C")) |}))
    (lit "Severe") sample_probability =
  Return (getFallbackAssessment (lit "Severe")).
Proof.
  apply (failure_status_fallback _ _ _
           {| status := 500;
              json := Return (candidates_body
                                (lit "DESCRIPTION: A CAUSE: B REMEDY: C")) |}).
  - reflexivity.
  - reflexivity.
Defined.

Lemma occurrences_none_until (p s : jsstr) :
  occurrences p s = 0%nat -> until (label_or_end p) s = s.
Proof.
  induction s as [|x s IH]; intro H.
  - apply until_nil.
  - simpl in H. rewrite until_cons. unfold label_or_end at 1.
    destruct (starts_ci p (x :: s)); [discriminate|]. simpl.
    rewrite IH; [reflexivity|lia].
Qed.

Lemma occurrences_none_after_label (p s : jsstr) :
  occurrences p s = 0%nat -> after_label p s = None.
Proof.
  induction s as [|x s IH]; intro H; simpl in H; unfold starts_ci in H; simpl.
  - now destruct (strip_prefix_ci p []).
  - destruct (strip_prefix_ci p (x :: s)); [discriminate|]. apply IH. lia.
Qed.

Lemma strip_prefix_ci_suffix (p s rest : jsstr) :
  strip_prefix_ci p s = Some rest -> exists l, s = l ++ rest.
Proof.
  revert s. induction p as [|x p IH]; intros s H; simpl in H.
  - injection H as ->. now exists [].
  - destruct s as [|y s]; [discriminate|].
    destruct (canonicalize x =? canonicalize y); [|discriminate].
    destruct (IH _ H) as [l ->]. now exists (y :: l).
Qed.

Lemma after_label_suffix (p s rest : jsstr) :
  after_label p s = Some rest -> exists l, s = l ++ rest.
Proof.
  induction s as [|x s IH]; simpl.
  - destruct (strip_prefix_ci p []) eqn:E; [|discriminate].
    intro H. injection H as ->. now apply (strip_prefix_ci_suffix p).
  - destruct (strip_prefix_ci p (x :: s)) eqn:E.
    + intro H. injection H as ->. now apply (strip_prefix_ci_suffix p).
    + intro H. destruct (IH H) as [l ->]. now exists (x :: l).
Qed.

Lemma occurrences_none_suffix (p a b : jsstr) :
  occurrences p (a ++ b) = 0%nat -> occurrences p b = 0%nat.
Proof. intro H. pose proof (occurrences_app_ge p a b). lia. Qed.

(** Without any [CAUSE:] in the text, the capture of the description
    pattern runs from the label [DESCRIPTION:] to the end of the text,
    across every other section, and the cause is the default. *)
Lemma description_without_cause
  (env : Env) (classification : jsstr) (probability : number)
  (text rest : jsstr) :
  generated env classification probability text ->
  occurrences (lit "CAUSE:") text = 0%nat ->
  after_label (lit "DESCRIPTION:") text = Some rest ->
  trim rest <> [] ->
  exists a,
    getGeminiAssessment env classification probability = Return (Assessment a)
    /\ description a = trim rest
    /\ cause a = lit "Cause assessment not available.".
Proof.
  intros Hgen H0 Hd Ht. eexists. split; [exact (generated_parsed _ _ _ _ Hgen)|].
  simpl description. simpl cause.
  rewrite exec_descriptionRe, exec_causeRe, Hd.
  rewrite (occurrences_none_after_label _ _ H0).
  split; [|reflexivity].
  destruct (after_label_suffix _ _ _ Hd) as [l E].
  destruct (skip_spaces_suffix rest) as [ws Ews].
  rewrite occurrences_none_until.
  - rewrite section_trimmed; now rewrite trim_skip_spaces.
  - apply (occurrences_none_suffix _ (l ++ ws)).
    rewrite <- app_assoc, <- Ews, <- E. exact H0.
Qed.

(** C5. With the candidate text [DESCRIPTION: A\nREMEDY: C], which has no
    [CAUSE:] section, the cause is the default and the remedy is [C], but the
    description is not [A]: it is [A\nREMEDY: C], the text of the
    description section followed by the whole remedy section. *)
Theorem missing_cause_description_overruns :
  getGeminiAssessment
    (env_with (success_with (lit "DESCRIPTION: A" ++ newline ++ lit "REMEDY: C")))
    (lit "Moderate") sample_probability =
  Return (Assessment
            {| description := lit "A" ++ newline ++ lit "REMEDY: C";
               cause := lit "Cause assessment not available.";
               remedy := lit "C" |}).
Proof. reflexivity. Qed.

(** C10. On the parse path, a field whose pattern captured text that trims
    to the empty string gets the default of the field, as it does when the
    pattern did not match. *)
Theorem blank_section_defaults
  (env : Env) (classification : jsstr) (probability : number)
  (text : jsstr) (f : field) :
  generated env classification probability text ->
  blank (exec (pattern_of f) text) ->
  exists a,
    getGeminiAssessment env classification probability = Return (Assessment a)
    /\ project f a = default_of f.
Proof.
  intros Hgen Hb. eexists. split; [exact (generated_parsed _ _ _ _ Hgen)|].
  destruct f; simpl project; simpl pattern_of in Hb;
    match goal with
    | |- section ?m _ = _ => destruct m as [[c|]|]; simpl in *;
                             [rewrite Hb|..]; reflexivity
    end.
Qed.

(** The label [DESCRIPTION:] followed by white space only. *)
Lemma blank_section_defaults_witness :
  exec descriptionRe
    (lit "DESCRIPTION:   " ++ newline ++ lit "CAUSE: x" ++ newline ++ lit "REMEDY: y")
  = Some (Some [])
  /\ exists a,
    getGeminiAssessment
      (env_with (success_with
                   (lit "DESCRIPTION:   " ++ newline ++ lit "CAUSE: x" ++ newline
                    ++ lit "REMEDY: y")))
      (lit "Mild") sample_probability = Return (Assessment a)
    /\ description a = lit "Assessment not available.".
Proof.
  split; [reflexivity|].
  apply (blank_section_defaults _ _ _
           (lit "DESCRIPTION:   " ++ newline ++ lit "CAUSE: x" ++ newline
            ++ lit "REMEDY: y") Description).
  - eexists. eexists. repeat split.
  - reflexivity.
Defined.

(** An empty candidate text, which is also what a body without candidates
    gives: the three defaults. *)
Lemma empty_text_defaults :
  candidate_text (VObj []) = Return (VStr [])
  /\ getGeminiAssessment (env_with (success_with [])) (lit "Mild") sample_probability =
     Return (Assessment
               {| description := lit "Assessment not available.";
                  cause := lit "Cause assessment not available.";
                  remedy := lit "Please consult with a healthcare professional." |}).
Proof. split; reflexivity. Qed.

(* ================================================================== *)
(** ** analyzeImage *)

Lemma analyzeImage_fetch_throws (env : Env) (file : File) (e : thrown) :
  fetch env (predict_request env file) = Throw e ->
  analyzeImage env file = Throw e.
Proof. intro H. unfold analyzeImage. now rewrite H. Qed.


(** With a failure status the promise is rejected, whatever the body. *)
Lemma analyzeImage_failure_rejects (env : Env) (file : File) (resp : response) :
  fetch env (predict_request env file) = Return resp ->
  ok resp = false ->
  rejects (analyzeImage env file).
Proof.
  intros H Hok. unfold analyzeImage, rejects. rewrite H. simpl bind.
  rewrite Hok. simpl negb. cbv iota.
  destruct (_ <- promise_catch (json resp) _ ;; _) as [v|e] eqn:E.
  - exfalso. destruct (json resp) as [data|e0]; simpl in E.
    + destruct (get_named data (lit "detail")) as [d|]; simpl in E;
        [|discriminate].
      destruct (new_Error env _); discriminate.
    + discriminate.
  - simpl. eauto.
Qed.

(** C7, as the code has it.  With a failure status, [analyzeImage] rejects.
    The message of the error is the [detail] of the decoded body when
    [detail] is a string that is not empty; it is [Server error: <status>]
    when the body does not decode, and when the body decodes to a value other
    than null whose [detail] is absent or falsy (the empty string, null,
    false, zero). *)
Theorem failure_status_message
  (env : Env) (file : File) (resp : response) :
  fetch env (predict_request env file) = Return resp ->
  ok resp = false ->
  rejects (analyzeImage env file)
  /\ (forall data c d,
         json resp = Return data ->
         get_named data (lit "detail") = Return (VStr (c :: d)) ->
         analyzeImage env file = Throw (NewError (c :: d)))
  /\ (forall e,
         json resp = Throw e ->
         analyzeImage env file =
         Throw (NewError (lit "Server error: " ++ integer_to_string (status resp))))
  /\ (forall data v,
         json resp = Return data ->
         get_named data (lit "detail") = Return v ->
         truthy v = false ->
         analyzeImage env file =
         Throw (NewError (lit "Server error: " ++ integer_to_string (status resp)))).
Proof.
  intros H Hok. split; [exact (analyzeImage_failure_rejects _ _ _ H Hok)|].
  unfold analyzeImage. rewrite H. simpl bind. rewrite Hok. simpl negb. cbv iota.
  split; [|split].
  - intros data c d Hj Hd. rewrite Hj. simpl. now rewrite Hd.
  - intros e Hj. rewrite Hj. reflexivity.
  - intros data v Hj Hd Hv. rewrite Hj. simpl. rewrite Hd. simpl.
    unfold or_else. now rewrite Hv.
Qed.

(** Status 422 with the body [{detail: "bad file type"}]. *)
Lemma failure_status_message_witness :
  analyzeImage
    (env_with (Return {| status := 422;
                         json := Return (VObj [(lit "detail",
                                                VStr (lit "bad file type"))]) |}))
    sample_file
  = Throw (NewError (lit "bad file type")).
Proof.
  refine (proj1 (proj2 (failure_status_message
                          (env_with (Return {| status := 422;
                                               json := Return (VObj [(lit "detail",
                                                 VStr (lit "bad file type"))]) |}))
                          sample_file _ eq_refl eq_refl))
            (VObj [(lit "detail", VStr (lit "bad file type"))]) 98
            (lit "ad file type") eq_refl eq_refl).
Defined.

(** C7, as stated, fails.  Status 422 with a body whose [detail] is the
    empty string: the field is present, and the message of the rejection is
    not that string but [Server error: 422], although the body decoded and
    has the field. *)
Lemma detail_present_not_relayed :
  own_property (lit "detail") [(lit "detail", VStr [])] = VStr []
  /\ analyzeImage
       (env_with (Return {| status := 422;
                            json := Return (VObj [(lit "detail", VStr [])]) |}))
       sample_file
     = Throw (NewError (lit "Server error: 422"))
  /\ ~ (forall (env : Env) (file : File) (resp : response)
               (props : list (jsstr * value)) (d : jsstr),
          fetch env (predict_request env file) = Return resp ->
          ok resp = false ->
          json resp = Return (VObj props) ->
          own_property (lit "detail") props = VStr d ->
          analyzeImage env file = Throw (NewError d)).
Proof.
  split; [reflexivity|]. split; [reflexivity|].
  intro claim.
  specialize (claim
    (env_with (Return {| status := 422;
                         json := Return (VObj [(lit "detail", VStr [])]) |}))
    sample_file
    {| status := 422; json := Return (VObj [(lit "detail", VStr [])]) |}
    [(lit "detail", VStr [])] []
    eq_refl eq_refl eq_refl eq_refl).
  vm_compute in claim. discriminate claim.
Qed.

(* ================================================================== *)
(** ** checkServerHealth *)

Lemma checkServerHealth_resolves (env : Env) : resolves (checkServerHealth env).
Proof.
  unfold checkServerHealth, resolves.
  destruct (_ <- fetch env _ ;; _) as [v|e]; simpl; eauto.
Qed.

(** C9. [checkServerHealth] never rejects.  When the fetch and the decoding
    succeed it resolves to the decoded body, unchanged; when the fetch or
    the decoding throws it resolves to
    [{status: "unhealthy", message: "Could not connect to server"}]. *)
Theorem health_probe_contract (env : Env) :
  resolves (checkServerHealth env)
  /\ (forall resp body,
         fetch env (health_request env) = Return resp ->
         json resp = Return body ->
         checkServerHealth env = Return body)
  /\ (forall e,
         fetch env (health_request env) = Throw e ->
         checkServerHealth env =
         Return (VObj [ (lit "status", VStr (lit "unhealthy"));
                        (lit "message", VStr (lit "Could not connect to server")) ]))
  /\ (forall resp e,
         fetch env (health_request env) = Return resp ->
         json resp = Throw e ->
         checkServerHealth env =
         Return (VObj [ (lit "status", VStr (lit "unhealthy"));
                        (lit "message", VStr (lit "Could not connect to server")) ])).
Proof.
  split; [apply checkServerHealth_resolves|].
  unfold checkServerHealth. split; [|split].
  - intros resp body H Hj. rewrite H. simpl. now rewrite Hj.
  - intros e H. now rewrite H.
  - intros resp e H Hj. rewrite H. simpl. now rewrite Hj.
Qed.

(** The network is down. *)
Lemma health_probe_contract_witness :
  checkServerHealth (env_with network_down) =
  Return (VObj [ (lit "status", VStr (lit "unhealthy"));
                 (lit "message", VStr (lit "Could not connect to server")) ]).
Proof.
  exact (proj1 (proj2 (proj2 (health_probe_contract (env_with network_down))))
           (EnvFailure (lit "TypeError") (lit "Failed to fetch")) eq_refl).
Defined.

(* ================================================================== *)
(** ** Which function lets a failure through *)



(* ================================================================== *)
(** ** Further properties: what [getGeminiAssessment] can resolve to *)

Lemma skip_spaces_head (s : jsstr) (x : N) (r : jsstr) :
  skip_spaces s = x :: r -> is_space x = false.
Proof.
  induction s as [|y s IH]; simpl; [discriminate|].
  destruct (is_space y) eqn:E; [exact IH|].
  intro H. injection H as <- _. exact E.
Qed.

Lemma skip_spaces_fixed (s : jsstr) :
  (forall x r, s = x :: r -> is_space x = false) -> skip_spaces s = s.
Proof.
  destruct s as [|x r]; [reflexivity|].
  intro H. simpl. now rewrite (H x r eq_refl).
Qed.

(** What [trim] removes: white space before, white space after. *)
Lemma trim_infix (s : jsstr) : exists before after, s = before ++ trim s ++ after.
Proof.
  destruct (skip_spaces_suffix s) as [ws E].
  destruct (skip_spaces_suffix (rev (skip_spaces s))) as [ws' E'].
  exists ws, (rev ws'). unfold trim.
  rewrite <- rev_app_distr, <- E', rev_involutive. exact E.
Qed.

Lemma trim_idempotent (s : jsstr) : trim (trim s) = trim s.
Proof.
  assert (H1 : skip_spaces (trim s) = trim s).
  { apply skip_spaces_fixed. intros x r Hx.
    destruct (trim_infix s) as (before & after & E).
    destruct (skip_spaces_suffix s) as [ws Ews].
    destruct (skip_spaces_suffix (rev (skip_spaces s))) as [ws' E'].
    assert (Hs : skip_spaces s = trim s ++ rev ws').
    { unfold trim. rewrite <- rev_app_distr, <- E'. now rewrite rev_involutive. }
    rewrite Hx in Hs. simpl in Hs. now apply (skip_spaces_head s x _ Hs). }
  unfold trim at 1. rewrite H1. unfold trim.
  now rewrite rev_involutive, skip_spaces_idem.
Qed.

Lemma section_cases (m : option captures) (dflt : jsstr) :
  section m dflt = dflt
  \/ exists c, m = Some (Some c) /\ trim c <> [] /\ section m dflt = trim c.
Proof.
  destruct m as [[c|]|]; simpl; auto.
  destruct (trim c) eqn:E; auto.
  right. exists c. rewrite E. repeat split. discriminate.
Qed.

(** How the promise of [getGeminiAssessment] is fulfilled: by the fallback
    lookup, or by the three sections read off a candidate text. *)
Lemma getGeminiAssessment_cases (env : Env) (classification : jsstr)
  (probability : number) :
  getGeminiAssessment env classification probability =
    Return (getFallbackAssessment classification)
  \/ exists text,
       generated env classification probability text.
Proof.
  unfold getGeminiAssessment, generated.
  destruct (fetch env _) as [resp|e] eqn:Hf; simpl; [|now left].
  destruct (ok resp) eqn:Hok; simpl; [|now left].
  destruct (json resp) as [data|e] eqn:Hj; simpl; [|now left].
  destruct (candidate_text data) as [text|e] eqn:Ht; simpl; [|now left].
  destruct text; simpl; try now left.
  right. eauto 10.
Qed.

Lemma own_entry_in (key : jsstr) (table : list (jsstr * GeminiAssessment))
  (a : GeminiAssessment) :
  own_entry key table = Some a -> In (key, a) table.
Proof.
  induction table as [|[k b] table IH]; simpl; [discriminate|].
  destruct (jsstr_eqb k key) eqn:E.
  - intro H. injection H as ->. apply jsstr_eqb_eq in E. subst. now left.
  - intro H. right. now apply IH.
Qed.

Lemma filledb_filled (a : GeminiAssessment) : filledb a = true -> filled a.
Proof.
  unfold filledb, filled. intro H.
  apply andb_true_iff in H. destruct H as [H H3].
  apply andb_true_iff in H. destruct H as [H1 H2].
  repeat split; intro E; rewrite E in *; discriminate.
Qed.

Lemma fallback_filled (classification : jsstr) (a : GeminiAssessment) :
  getFallbackAssessment classification = Assessment a -> filled a.
Proof.
  unfold getFallbackAssessment, table_get.
  destruct (own_entry classification assessments) as [b|] eqn:E.
  - intro H. injection H as ->. apply own_entry_in in E.
    apply filledb_filled.
    assert (All : forallb (fun e => filledb (snd e)) assessments = true)
      by reflexivity.
    rewrite forallb_forall in All. exact (All _ E).
  - destruct (existsb _ _); [discriminate|].
    intro H. injection H as <-. unfold filled. simpl.
    repeat split; try discriminate.
    destruct classification; discriminate.
Qed.

(** X1. Whenever the promise is fulfilled with an assessment, from the parse or
    from the fallback lookup, none of its description, cause and remedy is
    the empty string. *)
Theorem assessment_always_filled
  (env : Env) (classification : jsstr) (probability : number)
  (a : GeminiAssessment) :
  getGeminiAssessment env classification probability = Return (Assessment a) ->
  description a <> [] /\ cause a <> [] /\ remedy a <> [].
Proof.
  intro H.
  destruct (getGeminiAssessment_cases env classification probability)
    as [Hfb | [text Hgen]].
  - rewrite Hfb in H. injection H as H. exact (fallback_filled _ _ H).
  - rewrite (generated_parsed _ _ _ _ Hgen) in H. injection H as <-.
    simpl.
    repeat split;
      match goal with
      | |- section ?m ?d <> [] =>
          destruct (section_cases m d) as [-> | (c & _ & Hc & ->)];
            [discriminate | exact Hc]
      end.
Qed.

(** A candidate text made of the three labels and white space. *)
Lemma assessment_always_filled_witness :
  description defaults <> [] /\ cause defaults <> [] /\ remedy defaults <> [].
Proof.
  apply (assessment_always_filled
           (env_with (success_with (lit "DESCRIPTION: CAUSE:  REMEDY: ")))
           (lit "Mild") sample_probability defaults).
  reflexivity.
Defined.

(** X2. On the parse path each of the three texts is a fixed point of [trim]:
    it neither starts nor ends with white space, whatever the candidate
    text. *)
Theorem parsed_fields_trimmed
  (env : Env) (classification : jsstr) (probability : number)
  (text : jsstr) :
  generated env classification probability text ->
  exists a,
    getGeminiAssessment env classification probability = Return (Assessment a)
    /\ trim (description a) = description a
    /\ trim (cause a) = cause a
    /\ trim (remedy a) = remedy a.
Proof.
  intro Hgen. eexists. split; [exact (generated_parsed _ _ _ _ Hgen)|].
  simpl.
  repeat split;
    match goal with
    | |- trim (section ?m ?d) = _ =>
        destruct (section_cases m d) as [-> | (c & _ & _ & ->)];
          [reflexivity | apply trim_idempotent]
    end.
Qed.

(** Sections padded with blanks, tabs and line ends. *)
Lemma parsed_fields_trimmed_witness :
  exists a,
    getGeminiAssessment
      (env_with (success_with
                   (lit "DESCRIPTION:    mild changes  " ++ newline
                    ++ lit "CAUSE: " ++ newline ++ lit "  sugar " ++ newline
                    ++ lit "REMEDY: see a doctor " ++ newline)))
      (lit "Mild") sample_probability = Return (Assessment a)
    /\ trim (description a) = description a
    /\ trim (cause a) = cause a
    /\ trim (remedy a) = remedy a.
Proof.
  apply (parsed_fields_trimmed _ _ _
           (lit "DESCRIPTION:    mild changes  " ++ newline
            ++ lit "CAUSE: " ++ newline ++ lit "  sugar " ++ newline
            ++ lit "REMEDY: see a doctor " ++ newline)).
  eexists. eexists. repeat split.
Defined.

(* ================================================================== *)
(** ** Further properties: the body of a success response *)

(** X3. A success response whose body decodes to null: reading [candidates]
    throws, and the exception ends in the fallback lookup. *)
Theorem null_body_fallback
  (env : Env) (classification : jsstr) (probability : number)
  (resp : response) :
  fetch env (gemini_request env classification probability) = Return resp ->
  ok resp = true ->
  json resp = Return VNull ->
  getGeminiAssessment env classification probability =
  Return (getFallbackAssessment classification).
Proof.
  intros Hf Hok Hj. unfold getGeminiAssessment.
  rewrite Hf. simpl bind. rewrite Hok. simpl. now rewrite Hj.
Qed.

Lemma null_body_fallback_witness :
  getGeminiAssessment
    (env_with (Return {| status := 200; json := Return VNull |}))
    (lit "No DR") sample_probability =
  Return (getFallbackAssessment (lit "No DR")).
Proof.
  apply (null_body_fallback _ _ _ {| status := 200; json := Return VNull |});
    reflexivity.
Defined.

(** X4. A success response whose candidate text is truthy and not a string (a
    number, [true], an array, an object): it has no [match] to call, and the
    exception ends in the fallback lookup, not in the defaults. *)
Theorem non_string_text_fallback
  (env : Env) (classification : jsstr) (probability : number)
  (resp : response) (data text : value) :
  fetch env (gemini_request env classification probability) = Return resp ->
  ok resp = true ->
  json resp = Return data ->
  candidate_text data = Return text ->
  is_string text = false ->
  getGeminiAssessment env classification probability =
  Return (getFallbackAssessment classification).
Proof.
  intros Hf Hok Hj Ht Hs. unfold getGeminiAssessment.
  rewrite Hf. simpl bind. rewrite Hok. simpl. rewrite Hj. simpl.
  rewrite Ht. simpl. now destruct text.
Qed.

(** The text of the first part is the array [[1, 2]]. *)
Lemma non_string_text_fallback_witness :
  getGeminiAssessment
    (env_with
       (Return
          {| status := 200;
             json :=
               Return
                 (VObj [(lit "candidates",
                         VArr [VObj [(lit "content",
                                      VObj [(lit "parts",
                                             VArr [VObj [(lit "text",
                                                          VArr [VNull; VNull])]])])]])]) |}))
    (lit "Severe") sample_probability =
  Return (getFallbackAssessment (lit "Severe")).
Proof.
  eapply (non_string_text_fallback _ _ _ _ _ (VArr [VNull; VNull]));
    reflexivity.
Defined.

Lemma opt_index0_falsy (v : value) : truthy v = false -> opt_index0 v = VUndefined.
Proof. destruct v as [| |b|x|[|c s]|items|props]; simpl; congruence. Qed.

(** X5. A success response whose body is not null and whose [candidates] is
    absent or falsy: the candidate text is the empty string and the result
    is the three defaults, not the fallback lookup. *)
Theorem no_candidates_defaults
  (env : Env) (classification : jsstr) (probability : number)
  (resp : response) (data candidates : value) :
  fetch env (gemini_request env classification probability) = Return resp ->
  ok resp = true ->
  json resp = Return data ->
  get_named data (lit "candidates") = Return candidates ->
  truthy candidates = false ->
  getGeminiAssessment env classification probability =
  Return (Assessment
            {| description := lit "Assessment not available.";
               cause := lit "Cause assessment not available.";
               remedy := lit "Please consult with a healthcare professional." |}).
Proof.
  intros Hf Hok Hj Hc Hfalsy. unfold getGeminiAssessment.
  rewrite Hf. simpl bind. rewrite Hok. simpl. rewrite Hj. simpl.
  unfold candidate_text. rewrite Hc. simpl bind.
  rewrite (opt_index0_falsy _ Hfalsy). reflexivity.
Qed.

(** The body of an error report, without candidates. *)
Lemma no_candidates_defaults_witness :
  getGeminiAssessment
    (env_with (Return {| status := 200;
                         json := Return (VObj [(lit "error", VStr (lit "quota"))]) |}))
    (lit "Severe") sample_probability =
  Return (Assessment
            {| description := lit "Assessment not available.";
               cause := lit "Cause assessment not available.";
               remedy := lit "Please consult with a healthcare professional." |}).
Proof.
  eapply (no_candidates_defaults _ _ _ _
            (VObj [(lit "error", VStr (lit "quota"))]) VUndefined);
    reflexivity.
Defined.

(* ================================================================== *)
(** ** Further properties: labels in the parsed sections *)

Lemma strip_prefix_ci_app (p a b : jsstr) :
  strip_prefix_ci p a <> None -> strip_prefix_ci p (a ++ b) <> None.
Proof.
  revert a. induction p as [|x p IH]; intros a; simpl; [discriminate|].
  destruct a as [|y a]; simpl; [congruence|].
  destruct (canonicalize x =? canonicalize y); [apply IH | congruence].
Qed.

Lemma starts_ci_app (p a b : jsstr) :
  starts_ci p a = true -> starts_ci p (a ++ b) = true.
Proof.
  unfold starts_ci. intro H.
  pose proof (strip_prefix_ci_app p a b) as M.
  destruct (strip_prefix_ci p a); [|discriminate].
  destruct (strip_prefix_ci p (a ++ b)); [reflexivity|].
  exfalso. apply M; [discriminate|reflexivity].
Qed.

Lemma occurrences_none_prefix (p a b : jsstr) :
  starts_ci p [] = false ->
  occurrences p (a ++ b) = 0%nat -> occurrences p a = 0%nat.
Proof.
  intros Hp. induction a as [|x a IH]; intro H.
  - simpl. now rewrite Hp.
  - simpl in H. simpl.
    destruct (starts_ci p (x :: a)) eqn:E.
    + apply (starts_ci_app p (x :: a) b) in E. simpl app in E.
      rewrite E in H. discriminate.
    + rewrite IH; [reflexivity|].
      destruct (starts_ci p (x :: a ++ b)); [discriminate | exact H].
Qed.

Lemma occurrences_none_trim (p s : jsstr) :
  starts_ci p [] = false ->
  occurrences p s = 0%nat -> occurrences p (trim s) = 0%nat.
Proof.
  intros Hp H. destruct (trim_infix s) as (before & after & E).
  rewrite E in H. apply occurrences_none_suffix in H.
  now apply occurrences_none_prefix in H.
Qed.

Lemma until_prefix (stop : jsstr -> bool) (s : jsstr) :
  exists r, s = until stop s ++ r.
Proof.
  induction s as [|x s [r IH]].
  - exists []. now rewrite until_nil.
  - rewrite until_cons. destruct (stop (x :: s)).
    + now exists (x :: s).
    + exists r. simpl. now rewrite <- IH.
Qed.

(** The capture of a lazy star that stops at the label [p] holds no [p]. *)
Lemma until_label_free (p s : jsstr) :
  starts_ci p [] = false ->
  occurrences p (until (label_or_end p) s) = 0%nat.
Proof.
  intros Hp. induction s as [|x s IH].
  - rewrite until_nil. simpl. now rewrite Hp.
  - rewrite until_cons. unfold label_or_end at 1.
    destruct (starts_ci p (x :: s)) eqn:E; simpl orb; cbv iota.
    + simpl. now rewrite Hp.
    + simpl occurrences. rewrite IH.
      destruct (starts_ci p (x :: until (label_or_end p) s)) eqn:E'; [|reflexivity].
      destruct (until_prefix (label_or_end p) s) as [r Hr].
      apply (starts_ci_app _ _ r) in E'. simpl app in E'.
      rewrite <- Hr in E'. congruence.
Qed.

Lemma section_label_free (p dflt : jsstr) (m : option jsstr) :
  starts_ci p [] = false ->
  occurrences p dflt = 0%nat ->
  occurrences p
    (section
       match m with
       | Some rest => Some (Some (until (label_or_end p) (skip_spaces rest)))
       | None => None
       end dflt) = 0%nat.
Proof.
  intros Hp Hd.
  match goal with
  | |- occurrences p (section ?x dflt) = _ =>
      destruct (section_cases x dflt) as [-> | (c & Hc & _ & ->)]
  end; [exact Hd|].
  destruct m as [rest|]; [|discriminate].
  injection Hc as <-.
  apply occurrences_none_trim; [exact Hp|]. now apply until_label_free.
Qed.

(** X6. On the parse path the description never holds the label [CAUSE:], nor
    the cause the label [REMEDY:], in any case of their letters: each
    capture stops where the next label starts. *)
Theorem sections_hold_no_next_label
  (env : Env) (classification : jsstr) (probability : number)
  (text : jsstr) :
  generated env classification probability text ->
  exists a,
    getGeminiAssessment env classification probability = Return (Assessment a)
    /\ occurrences (lit "CAUSE:") (description a) = 0%nat
    /\ occurrences (lit "REMEDY:") (cause a) = 0%nat.
Proof.
  intro Hgen. eexists. split; [exact (generated_parsed _ _ _ _ Hgen)|].
  simpl description. simpl cause.
  rewrite exec_descriptionRe, exec_causeRe.
  split; apply section_label_free; reflexivity.
Qed.

(** A text with the labels repeated inside the sections. *)
Lemma sections_hold_no_next_label_witness :
  exists a,
    getGeminiAssessment
      (env_with (success_with
                   (lit "DESCRIPTION: early stage. cause: sugar. Cause: pressure. REMEDY: rest. remedy: diet.")))
      (lit "Mild") sample_probability = Return (Assessment a)
    /\ occurrences (lit "CAUSE:") (description a) = 0%nat
    /\ occurrences (lit "REMEDY:") (cause a) = 0%nat.
Proof.
  apply (sections_hold_no_next_label _ _ _
           (lit "DESCRIPTION: early stage. cause: sugar. Cause: pressure. REMEDY: rest. remedy: diet.")).
  eexists. eexists. repeat split.
Defined.

(** X7. A field whose label occurs nowhere in the candidate text, in any case of
    its letters, gets the default of the field. *)
Theorem absent_label_default
  (env : Env) (classification : jsstr) (probability : number)
  (text : jsstr) (f : field) :
  generated env classification probability text ->
  occurrences (label_of f) text = 0%nat ->
  exists a,
    getGeminiAssessment env classification probability = Return (Assessment a)
    /\ project f a = default_of f.
Proof.
  intros Hgen H0. eexists. split; [exact (generated_parsed _ _ _ _ Hgen)|].
  destruct f; simpl project; simpl label_of in H0.
  - now rewrite exec_descriptionRe, (occurrences_none_after_label _ _ H0).
  - now rewrite exec_causeRe, (occurrences_none_after_label _ _ H0).
  - now rewrite exec_remedyRe, (occurrences_none_after_label _ _ H0).
Qed.

(** Free text, without a label. *)
Lemma absent_label_default_witness :
  exists a,
    getGeminiAssessment
      (env_with (success_with (lit "I cannot help with medical questions.")))
      (lit "Mild") sample_probability = Return (Assessment a)
    /\ remedy a = lit "Please consult with a healthcare professional.".
Proof.
  apply (absent_label_default _ _ _
           (lit "I cannot help with medical questions.") Remedy).
  - eexists. eexists. repeat split.
  - reflexivity.
Defined.

(** X8. The remedy is all that follows the first [REMEDY:] of the text, trimmed,
    further labels included: the pattern of the remedy has no stop but the
    end of the text. *)
Theorem remedy_runs_to_end
  (env : Env) (classification : jsstr) (probability : number)
  (pre l rest text : jsstr) :
  generated env classification probability text ->
  text = pre ++ l ++ rest ->
  spells (lit "REMEDY:") l ->
  free (lit "REMEDY:") pre (l ++ rest) = true ->
  trim rest <> [] ->
  exists a,
    getGeminiAssessment env classification probability = Return (Assessment a)
    /\ remedy a = trim rest.
Proof.
  intros Hgen Htext Hl Hf Ht. eexists.
  split; [exact (generated_parsed _ _ _ _ Hgen)|].
  simpl remedy. rewrite exec_remedyRe, Htext.
  rewrite (free_after_label _ _ _ rest Hf (spells_prefix _ _ _ Hl)).
  rewrite section_trimmed; now rewrite trim_skip_spaces.
Qed.

(** A remedy followed by a second description. *)
Lemma remedy_runs_to_end_witness :
  exists a,
    getGeminiAssessment
      (env_with (success_with
                   (lit "CAUSE: sugar. Remedy: rest. DESCRIPTION: again. CAUSE: more.")))
      (lit "Mild") sample_probability = Return (Assessment a)
    /\ remedy a = lit "rest. DESCRIPTION: again. CAUSE: more.".
Proof.
  apply (remedy_runs_to_end _ _ _
           (lit "CAUSE: sugar. ") (lit "Remedy:")
           (lit " rest. DESCRIPTION: again. CAUSE: more.")
           (lit "CAUSE: sugar. Remedy: rest. DESCRIPTION: again. CAUSE: more.")).
  - eexists. eexists. repeat split.
  - reflexivity.
  - reflexivity.
  - reflexivity.
  - vm_compute. discriminate.
Defined.

(** The text of the missing cause section, with a longer description. *)
Lemma description_without_cause_witness :
  exists a,
    getGeminiAssessment
      (env_with (success_with
                   (lit "Result. DESCRIPTION: mild changes. REMEDY: see a doctor.")))
      (lit "Mild") sample_probability = Return (Assessment a)
    /\ description a = lit "mild changes. REMEDY: see a doctor."
    /\ cause a = lit "Cause assessment not available.".
Proof.
  apply (description_without_cause _ _ _
           (lit "Result. DESCRIPTION: mild changes. REMEDY: see a doctor.")
           (lit " mild changes. REMEDY: see a doctor.")).
  - eexists. eexists. repeat split.
  - reflexivity.
  - reflexivity.
  - vm_compute. discriminate.
Defined.

(* ================================================================== *)
(** ** Further properties: getFallbackAssessment *)

Lemma own_entry_none_not_in (key : jsstr)
  (table : list (jsstr * GeminiAssessment)) :
  own_entry key table = None -> ~ In key (map fst table).
Proof.
  induction table as [|[k a] table IH]; simpl; [tauto|].
  destruct (jsstr_eqb k key) eqn:K; [discriminate|].
  intros H [HIn|HIn]; [|exact (IH H HIn)].
  subst k. assert (T : jsstr_eqb key key = true) by now apply jsstr_eqb_eq.
  congruence.
Qed.

Lemma existsb_eqb_in (key : jsstr) (l : list jsstr) :
  In key l -> existsb (jsstr_eqb key) l = true.
Proof.
  intro H. apply existsb_exists. exists key. split; [exact H|].
  now apply jsstr_eqb_eq.
Qed.

(** X11. The generic assessment is what the lookup returns exactly for the
    labels that are neither a key of the table nor a property name that the
    table inherits. *)
Theorem fallback_generic_iff (classification : jsstr) :
  getFallbackAssessment classification =
    Assessment (generic_assessment classification)
  <-> ~ In classification known_labels
      /\ ~ In classification Object_prototype_keys.
Proof.
  split.
  - unfold getFallbackAssessment, table_get, known_labels.
    destruct (own_entry classification assessments) as [a|] eqn:E.
    + intro H. exfalso. injection H as ->.
      apply own_entry_in in E. simpl in E.
      repeat (destruct E as [E|E];
              [injection E as <- E; vm_compute in E; discriminate E|]).
      exact E.
    + destruct (existsb (jsstr_eqb classification) Object_prototype_keys) eqn:P;
        [discriminate|].
      intros _. split; [now apply own_entry_none_not_in|].
      intro HIn. apply existsb_eqb_in in HIn. congruence.
  - intros [H5 Hp]. now apply fallback_generic.
Qed.

(* ================================================================== *)
(** ** Further properties: analyzeImage *)

(** X12. [analyzeImage] resolves to a value exactly when the fetch returns a
    response with a success status whose body decodes to that value: the
    body is handed over as it is, without validation, and in every other
    case the promise is rejected. *)
Theorem analyzeImage_resolves_iff (env : Env) (file : File) (v : value) :
  analyzeImage env file = Return v
  <-> exists resp,
        fetch env (predict_request env file) = Return resp
        /\ ok resp = true
        /\ json resp = Return v.
Proof.
  split.
  - intro H.
    destruct (fetch env (predict_request env file)) as [resp|e] eqn:Hf.
    + destruct (ok resp) eqn:Hok.
      * exists resp. split; [reflexivity|]. split; [exact Hok|].
        unfold analyzeImage in H. rewrite Hf in H. simpl in H.
        rewrite Hok in H. simpl in H.
        destruct (json resp) as [body|e]; simpl in H; congruence.
      * destruct (analyzeImage_failure_rejects _ _ _ Hf Hok) as [e He].
        congruence.
    + rewrite (analyzeImage_fetch_throws _ _ _ Hf) in H. discriminate.
  - intros (resp & Hf & Hok & Hj).
    unfold analyzeImage. rewrite Hf. simpl. rewrite Hok. simpl.
    now rewrite Hj.
Qed.

(** X13. A failure status with the body [null]: the read of [detail] throws, and
    the promise is rejected with that TypeError, not with an error that
    carries the status. *)
Theorem failure_null_body_type_error
  (env : Env) (file : File) (resp : response) :
  fetch env (predict_request env file) = Return resp ->
  ok resp = false ->
  json resp = Return VNull ->
  analyzeImage env file = Throw TypeError.
Proof.
  intros Hf Hok Hj. unfold analyzeImage.
  rewrite Hf. simpl. rewrite Hok. simpl. now rewrite Hj.
Qed.

Lemma failure_null_body_type_error_witness :
  analyzeImage
    (env_with (Return {| status := 500; json := Return VNull |}))
    sample_file = Throw TypeError.
Proof.
  apply (failure_null_body_type_error _ _
           {| status := 500; json := Return VNull |}); reflexivity.
Defined.

(** X14. A failure status with a [detail] that is truthy and not a string (the
    list of validation errors of the server, for one): the message of the
    rejection is the string conversion of [detail], and when the conversion
    throws, the promise is rejected with what it throws. *)
Theorem failure_detail_converted
  (env : Env) (file : File) (resp : response) (data detail : value) :
  fetch env (predict_request env file) = Return resp ->
  ok resp = false ->
  json resp = Return data ->
  get_named data (lit "detail") = Return detail ->
  truthy detail = true ->
  is_string detail = false ->
  analyzeImage env file =
  match ToString env detail with
  | Return message => Throw (NewError message)
  | Throw e => Throw e
  end.
Proof.
  intros Hf Hok Hj Hd Ht Hs. unfold analyzeImage.
  rewrite Hf. simpl. rewrite Hok. simpl. rewrite Hj. simpl. rewrite Hd. simpl.
  unfold or_else. rewrite Ht.
  destruct detail; try discriminate Hs; simpl;
    now destruct (ToString env _).
Qed.

(** Status 422 with a list of validation errors as [detail]. *)
Lemma failure_detail_converted_witness :
  analyzeImage
    (env_with
       (Return {| status := 422;
                  json := Return (VObj [(lit "detail",
                                         VArr [VObj [(lit "msg", VStr (lit "field required"))]])]) |}))
    sample_file
  = Throw (NewError (lit "[object Object]")).
Proof.
  exact (failure_detail_converted
           (env_with
              (Return {| status := 422;
                         json := Return (VObj [(lit "detail",
                                                VArr [VObj [(lit "msg", VStr (lit "field required"))]])]) |}))
           sample_file
           {| status := 422;
              json := Return (VObj [(lit "detail",
                                     VArr [VObj [(lit "msg", VStr (lit "field required"))]])]) |}
           (VObj [(lit "detail",
                   VArr [VObj [(lit "msg", VStr (lit "field required"))]])])
           (VArr [VObj [(lit "msg", VStr (lit "field required"))]])
           eq_refl eq_refl eq_refl eq_refl eq_refl eq_refl).
Defined.

Lemma uint_units_inj (d d' : Decimal.uint) :
  uint_units d = uint_units d' -> d = d'.
Proof.
  revert d'. induction d; intros d' H; destruct d'; simpl in H;
    try discriminate H; try reflexivity;
    injection H as H; f_equal; now apply IHd.
Qed.

Lemma integer_to_string_inj (n n' : N) :
  integer_to_string n = integer_to_string n' -> n = n'.
Proof.
  unfold integer_to_string. intro H.
  apply DecimalN.Unsigned.to_uint_inj. now apply uint_units_inj.
Qed.

Lemma analyzeImage_failure_undecoded (env : Env) (file : File)
  (resp : response) (e : thrown) :
  fetch env (predict_request env file) = Return resp ->
  ok resp = false ->
  json resp = Throw e ->
  analyzeImage env file =
  Throw (NewError (lit "Server error: " ++ integer_to_string (status resp))).
Proof.
  intros Hf Hok Hj. unfold analyzeImage.
  rewrite Hf. simpl bind. rewrite Hok. simpl negb. cbv iota. now rewrite Hj.
Qed.

(** X15. The generic rejection tells the status: two failure responses whose
    bodies do not decode give the same rejection only when their statuses
    are the same. *)
Theorem generic_rejection_tells_status
  (env env' : Env) (file file' : File) (resp resp' : response)
  (e e' : thrown) :
  fetch env (predict_request env file) = Return resp ->
  ok resp = false ->
  json resp = Throw e ->
  fetch env' (predict_request env' file') = Return resp' ->
  ok resp' = false ->
  json resp' = Throw e' ->
  analyzeImage env file = analyzeImage env' file' ->
  status resp = status resp'.
Proof.
  intros Hf Hok Hj Hf' Hok' Hj' H.
  rewrite (analyzeImage_failure_undecoded _ _ _ _ Hf Hok Hj) in H.
  rewrite (analyzeImage_failure_undecoded _ _ _ _ Hf' Hok' Hj') in H.
  injection H as H. now apply integer_to_string_inj.
Qed.

(** Statuses 500 and 500, each with a body that is not JSON. *)
Lemma generic_rejection_tells_status_witness : 500 = 500.
Proof.
  apply (generic_rejection_tells_status
           (env_with (Return {| status := 500;
                                json := Throw (EnvFailure (lit "SyntaxError")
                                                 (lit "Unexpected token")) |}))
           (env_with (Return {| status := 500;
                                json := Throw (EnvFailure (lit "SyntaxError")
                                                 (lit "Unexpected end")) |}))
           sample_file sample_file
           {| status := 500;
              json := Throw (EnvFailure (lit "SyntaxError") (lit "Unexpected token")) |}
           {| status := 500;
              json := Throw (EnvFailure (lit "SyntaxError") (lit "Unexpected end")) |}
           (EnvFailure (lit "SyntaxError") (lit "Unexpected token"))
           (EnvFailure (lit "SyntaxError") (lit "Unexpected end")));
    reflexivity.
Defined.

(* ================================================================== *)
(** ** Further properties: a section without its stop *)

Lemma run_to_end (p rest dflt : jsstr) :
  occurrences p rest = 0%nat ->
  section (Some (Some (until (label_or_end p) (skip_spaces rest)))) dflt
  = text_or (trim rest) dflt.
Proof.
  intro H0. destruct (skip_spaces_suffix rest) as [ws Ews].
  rewrite occurrences_none_until.
  - apply section_text_or.
  - apply (occurrences_none_suffix _ ws). now rewrite <- Ews.
Qed.

(** X9. When no [CAUSE:] follows the first [DESCRIPTION:] of the text, the
    description is all that follows that [DESCRIPTION:], to the end of the
    text and across a remedy section if there is one, trimmed; when that is
    nothing but white space, the description is the default. *)
Theorem description_runs_to_end
  (env : Env) (classification : jsstr) (probability : number)
  (pre l rest text : jsstr) :
  generated env classification probability text ->
  text = pre ++ l ++ rest ->
  spells (lit "DESCRIPTION:") l ->
  free (lit "DESCRIPTION:") pre (l ++ rest) = true ->
  occurrences (lit "CAUSE:") rest = 0%nat ->
  exists a,
    getGeminiAssessment env classification probability = Return (Assessment a)
    /\ description a = text_or (trim rest) (lit "Assessment not available.").
Proof.
  intros Hgen Htext Hl Hf H0. eexists.
  split; [exact (generated_parsed _ _ _ _ Hgen)|].
  simpl description. rewrite exec_descriptionRe, Htext.
  rewrite (free_after_label _ _ _ rest Hf (spells_prefix _ _ _ Hl)).
  now apply run_to_end.
Qed.

(** A description in small letters, followed by a remedy and no cause. *)
Lemma description_runs_to_end_witness :
  exists a,
    getGeminiAssessment
      (env_with (success_with
                   (lit "Result. description: mild changes. REMEDY: see a doctor.")))
      (lit "Mild") sample_probability = Return (Assessment a)
    /\ description a = lit "mild changes. REMEDY: see a doctor.".
Proof.
  apply (description_runs_to_end _ _ _
           (lit "Result. ") (lit "description:")
           (lit " mild changes. REMEDY: see a doctor.")
           (lit "Result. description: mild changes. REMEDY: see a doctor.")).
  - eexists. eexists. repeat split.
  - reflexivity.
  - reflexivity.
  - reflexivity.
  - reflexivity.
Defined.

(** The label [DESCRIPTION:] followed by white space only: the default. *)
Lemma only_blanks_after_description :
  exists a,
    getGeminiAssessment
      (env_with (success_with (lit "DESCRIPTION:   ")))
      (lit "Mild") sample_probability = Return (Assessment a)
    /\ description a = lit "Assessment not available.".
Proof. eexists. split; reflexivity. Qed.

(** X10. When no [REMEDY:] follows the first [CAUSE:] of the text (the remedy
    section is missing, or comes before the cause), the cause is all that
    follows that [CAUSE:], to the end of the text, trimmed; when that is
    nothing but white space, the cause is the default. *)
Theorem cause_runs_to_end
  (env : Env) (classification : jsstr) (probability : number)
  (pre l rest text : jsstr) :
  generated env classification probability text ->
  text = pre ++ l ++ rest ->
  spells (lit "CAUSE:") l ->
  free (lit "CAUSE:") pre (l ++ rest) = true ->
  occurrences (lit "REMEDY:") rest = 0%nat ->
  exists a,
    getGeminiAssessment env classification probability = Return (Assessment a)
    /\ cause a = text_or (trim rest) (lit "Cause assessment not available.").
Proof.
  intros Hgen Htext Hl Hf H0. eexists.
  split; [exact (generated_parsed _ _ _ _ Hgen)|].
  simpl cause. rewrite exec_causeRe, Htext.
  rewrite (free_after_label _ _ _ rest Hf (spells_prefix _ _ _ Hl)).
  now apply run_to_end.
Qed.

(** The remedy comes first, the cause in mixed case, the description
    last. *)
Lemma cause_runs_to_end_witness :
  exists a,
    getGeminiAssessment
      (env_with (success_with
                   (lit "REMEDY: rest. Cause: sugar. DESCRIPTION: mild changes.")))
      (lit "Mild") sample_probability = Return (Assessment a)
    /\ cause a = lit "sugar. DESCRIPTION: mild changes.".
Proof.
  apply (cause_runs_to_end _ _ _
           (lit "REMEDY: rest. ") (lit "Cause:")
           (lit " sugar. DESCRIPTION: mild changes.")
           (lit "REMEDY: rest. Cause: sugar. DESCRIPTION: mild changes.")).
  - eexists. eexists. repeat split.
  - reflexivity.
  - reflexivity.
  - reflexivity.
  - reflexivity.
Defined.

(** The label [CAUSE:] at the end of the text, followed by white space
    only: the default. *)
Lemma only_blanks_after_cause :
  exists a,
    getGeminiAssessment
      (env_with (success_with (lit "REMEDY: rest. CAUSE:  ")))
      (lit "Mild") sample_probability = Return (Assessment a)
    /\ cause a = lit "Cause assessment not available.".
Proof. eexists. split; reflexivity. Qed.
